(** * The clicker-game economy server (server.py) over a typed Redis store

    The handlers of [server.py] keep all of their state in Redis.  The
    embedding below gives every key family of the server one field of a
    [store] record and turns each handler into a function
    [store -> inputs -> store * response].

    Conventions of the model:
    - integers kept in Redis strings, hash fields and sorted-set scores are
      [Z] (scores are doubles in Redis, exact for the integers below 2^53);
    - what a handler reads from the clock or from the random generator is an
      argument of the handler ([now_ms], [is_critical], the drawn
      [unique_id]s);
    - a key written with a time to live carries its expiry instant, and is
      seen by a reader at instant [now] while [now] is before that instant;
    - an exception that leaves the handler (a 500 answer) is a response of
      its own, next to the JSON answers, with the store as it was when the
      exception was raised;
    - the history streams ([XADD]) and the socket broadcasts are write-only:
      no handler reads them back, and they are left out of the store. *)

From Stdlib Require Import ZArith.
From stdpp Require Import gmap strings pretty sorting list.

Local Open Scope Z_scope.

(** ** Data kept in the store *)

(** The hash [player:<id>].  [player_login] writes all the fields; a hash
    that [HINCRBY] had to create has [gold] only.  [level], [exp] and
    [created_at] are written once at creation and never read by a handler. *)
Record player := Player {
  username : option string;
  gold : Z;
  last_login : option Z
}.

(** One entry of the list [inventory:<id>].  [unique_id] is the float
    [time.time() * 1000 + random.random()] of the source; the handlers only
    compare it for equality, and it is kept as a number drawn by the
    environment. *)
Record inventory_item := InventoryItem {
  inv_item_id : string;
  inv_name : string;
  unique_id : Z;
  acquired_at : Z
}.

(** The hash [item:<id>] of the catalogue (seeded with [name] and [price]). *)
Record item := Item {
  item_name : string;
  item_price : Z
}.

(** The hash [auction:<ms>]. *)
Record auction := Auction {
  seller : string;
  seller_name : string;
  auc_item_id : string;
  auc_item_name : string;
  current_price : Z;
  highest_bidder : string;
  highest_bidder_name : string;
  created_at : Z
}.

(** A key written with [SETEX]/[PSETEX]: its value and the instant (in ms) at
    which it expires. *)
Record expiring (A : Type) := Expiring { ex_value : A; ex_deadline : Z }.
Arguments Expiring {A} _ _.
Arguments ex_value {A} _.
Arguments ex_deadline {A} _.

Definition alive {A} (now : Z) (e : expiring A) : bool := now <? ex_deadline e.

(** [GET] of a key with a time to live. *)
Definition get_alive {A} (now : Z) (o : option (expiring A)) : option A :=
  match o with
  | Some e => if alive now e then Some (ex_value e) else None
  | None => None
  end.

Record store := Store {
  players : gmap string player;               (* player:<id> *)
  inventory : gmap string (list inventory_item); (* inventory:<id> *)
  clicks : gmap string Z;                     (* clicks:<id> *)
  combo : gmap string (expiring Z);           (* combo:<id> *)
  cooldown : gmap string (expiring Z);        (* cooldown:<id> *)
  rate : gmap string (gset Z);                (* rate:clicks:<id> *)
  lb_gold : gmap string Z;                    (* leaderboard:gold *)
  lb_clicks : gmap string Z;                  (* leaderboard:clicks *)
  items : gmap string item;                   (* item:<id> *)
  stock : gmap string Z;                      (* stock:<id> *)
  auctions : gmap string auction;             (* auction:<ms>, by full key *)
  active : gmap string Z;                     (* auctions:active *)
  cfg_cooldown_ms : option Z;                 (* config:click_cooldown_ms *)
  cfg_window_ms : option Z;                   (* config:click_window_ms *)
  cfg_max_hits : option Z                     (* config:click_max_hits *)
}.

Definition empty_store : store :=
  Store ∅ ∅ ∅ ∅ ∅ ∅ ∅ ∅ ∅ ∅ ∅ ∅ None None None.

(** Field updates. *)
Definition set_players (v : gmap string player) (s : store) : store :=
  Store v (inventory s) (clicks s) (combo s) (cooldown s) (rate s) (lb_gold s)
    (lb_clicks s) (items s) (stock s) (auctions s) (active s)
    (cfg_cooldown_ms s) (cfg_window_ms s) (cfg_max_hits s).
Definition set_inventory (v : gmap string (list inventory_item)) (s : store) : store :=
  Store (players s) v (clicks s) (combo s) (cooldown s) (rate s) (lb_gold s)
    (lb_clicks s) (items s) (stock s) (auctions s) (active s)
    (cfg_cooldown_ms s) (cfg_window_ms s) (cfg_max_hits s).
Definition set_clicks (v : gmap string Z) (s : store) : store :=
  Store (players s) (inventory s) v (combo s) (cooldown s) (rate s) (lb_gold s)
    (lb_clicks s) (items s) (stock s) (auctions s) (active s)
    (cfg_cooldown_ms s) (cfg_window_ms s) (cfg_max_hits s).
Definition set_combo (v : gmap string (expiring Z)) (s : store) : store :=
  Store (players s) (inventory s) (clicks s) v (cooldown s) (rate s) (lb_gold s)
    (lb_clicks s) (items s) (stock s) (auctions s) (active s)
    (cfg_cooldown_ms s) (cfg_window_ms s) (cfg_max_hits s).
Definition set_cooldown (v : gmap string (expiring Z)) (s : store) : store :=
  Store (players s) (inventory s) (clicks s) (combo s) v (rate s) (lb_gold s)
    (lb_clicks s) (items s) (stock s) (auctions s) (active s)
    (cfg_cooldown_ms s) (cfg_window_ms s) (cfg_max_hits s).
Definition set_rate (v : gmap string (gset Z)) (s : store) : store :=
  Store (players s) (inventory s) (clicks s) (combo s) (cooldown s) v (lb_gold s)
    (lb_clicks s) (items s) (stock s) (auctions s) (active s)
    (cfg_cooldown_ms s) (cfg_window_ms s) (cfg_max_hits s).
Definition set_lb_gold (v : gmap string Z) (s : store) : store :=
  Store (players s) (inventory s) (clicks s) (combo s) (cooldown s) (rate s) v
    (lb_clicks s) (items s) (stock s) (auctions s) (active s)
    (cfg_cooldown_ms s) (cfg_window_ms s) (cfg_max_hits s).
Definition set_lb_clicks (v : gmap string Z) (s : store) : store :=
  Store (players s) (inventory s) (clicks s) (combo s) (cooldown s) (rate s)
    (lb_gold s) v (items s) (stock s) (auctions s) (active s)
    (cfg_cooldown_ms s) (cfg_window_ms s) (cfg_max_hits s).
Definition set_items (v : gmap string item) (s : store) : store :=
  Store (players s) (inventory s) (clicks s) (combo s) (cooldown s) (rate s)
    (lb_gold s) (lb_clicks s) v (stock s) (auctions s) (active s)
    (cfg_cooldown_ms s) (cfg_window_ms s) (cfg_max_hits s).
Definition set_stock (v : gmap string Z) (s : store) : store :=
  Store (players s) (inventory s) (clicks s) (combo s) (cooldown s) (rate s)
    (lb_gold s) (lb_clicks s) (items s) v (auctions s) (active s)
    (cfg_cooldown_ms s) (cfg_window_ms s) (cfg_max_hits s).
Definition set_auctions (v : gmap string auction) (s : store) : store :=
  Store (players s) (inventory s) (clicks s) (combo s) (cooldown s) (rate s)
    (lb_gold s) (lb_clicks s) (items s) (stock s) v (active s)
    (cfg_cooldown_ms s) (cfg_window_ms s) (cfg_max_hits s).
Definition set_active (v : gmap string Z) (s : store) : store :=
  Store (players s) (inventory s) (clicks s) (combo s) (cooldown s) (rate s)
    (lb_gold s) (lb_clicks s) (items s) (stock s) (auctions s) v
    (cfg_cooldown_ms s) (cfg_window_ms s) (cfg_max_hits s).
Definition set_cfg_cooldown_ms (v : option Z) (s : store) : store :=
  Store (players s) (inventory s) (clicks s) (combo s) (cooldown s) (rate s)
    (lb_gold s) (lb_clicks s) (items s) (stock s) (auctions s) (active s)
    v (cfg_window_ms s) (cfg_max_hits s).
Definition set_cfg_window_ms (v : option Z) (s : store) : store :=
  Store (players s) (inventory s) (clicks s) (combo s) (cooldown s) (rate s)
    (lb_gold s) (lb_clicks s) (items s) (stock s) (auctions s) (active s)
    (cfg_cooldown_ms s) v (cfg_max_hits s).
Definition set_cfg_max_hits (v : option Z) (s : store) : store :=
  Store (players s) (inventory s) (clicks s) (combo s) (cooldown s) (rate s)
    (lb_gold s) (lb_clicks s) (items s) (stock s) (auctions s) (active s)
    (cfg_cooldown_ms s) (cfg_window_ms s) v.

(** ** Redis commands used by the handlers *)

(** [HGET player:<id> gold]. *)
Definition hget_gold (s : store) (pid : string) : option Z :=
  gold <$> players s !! pid.

(** The balance as a number, an absent hash counting for 0 (what [HINCRBY]
    starts from, and what [int(... or 0)] reads). *)
Definition gold_of (s : store) (pid : string) : Z :=
  default 0 (hget_gold s pid).

(** [HINCRBY player:<id> gold d]: creates the hash, and the field, when
    absent; returns the new value. *)
Definition hincrby_gold (pid : string) (d : Z) (s : store) : store * Z :=
  let g := gold_of s pid + d in
  let p := match players s !! pid with
           | Some p => Player (username p) g (last_login p)
           | None => Player None g None
           end in
  (set_players (<[pid := p]> (players s)) s, g).

(** [INCR clicks:<id>]. *)
Definition incr_clicks (pid : string) (s : store) : store * Z :=
  let n := default 0 (clicks s !! pid) + 1 in
  (set_clicks (<[pid := n]> (clicks s)) s, n).

(** [ZADD leaderboard:gold score member] and the same on the click board. *)
Definition zadd_lb_gold (pid : string) (score : Z) (s : store) : store :=
  set_lb_gold (<[pid := score]> (lb_gold s)) s.
Definition zadd_lb_clicks (pid : string) (score : Z) (s : store) : store :=
  set_lb_clicks (<[pid := score]> (lb_clicks s)) s.

(** The sorted set [rate:clicks:<id>]: [click] adds the member [str(now_ms)]
    with the score [now_ms], so that the set is a set of instants.  An empty
    sorted set is an absent key. *)
Definition rate_window (s : store) (pid : string) : gset Z :=
  default ∅ (rate s !! pid).

Definition put_rate_window (pid : string) (w : gset Z) (s : store) : store :=
  set_rate (if decide (w = ∅) then delete pid (rate s) else <[pid := w]> (rate s)) s.

(** [ZREMRANGEBYSCORE key lo hi]: drops the members with [lo <= score <= hi]. *)
Definition zremrangebyscore (lo hi : Z) (w : gset Z) : gset Z :=
  filter (λ t, ¬ (lo ≤ t ≤ hi)) w.

(** [ZRANGE key 0 0 WITHSCORES]: the member of lowest score, if any. *)
Definition zset_oldest (w : gset Z) : option Z :=
  match elements w with
  | [] => None
  | t :: l => Some (foldr Z.min t l)
  end.

(** ** The click handler *)

Record click_ok := ClickReply {
  ok_reward : Z;
  ok_gold : Z;
  ok_combo : Z;
  ok_critical : bool;
  ok_total_clicks : Z;
  ok_cooldown_ms : Z;
  ok_rate_limit_window_ms : Z;
  ok_rate_limit_max_hits : Z
}.

Inductive click_response :=
| ClickNotFound                                   (* 404 *)
| ClickThrottled (retry_after_ms limit_window_ms limit_max_hits : Z) (* 429 *)
| ClickCooldown (cooldown_left_ms : Z)            (* 429 *)
| ClickAccepted (r : click_ok).                   (* 200 *)

Definition click_status (r : click_response) : Z :=
  match r with
  | ClickNotFound => 404
  | ClickThrottled _ _ _ => 429
  | ClickCooldown _ => 429
  | ClickAccepted _ => 200
  end.

(** Part C of [click]: the reward for a combo and a critical draw. *)
Definition click_reward (combo : Z) (is_critical : bool) : Z :=
  let base_reward := 10 in
  let combo_bonus := Z.min (combo * 2) 50 in
  let total_reward := base_reward + combo_bonus in
  if is_critical then total_reward * 2 else total_reward.

(** The Lua script of [click]. *)
Definition click_script (pid : string) (reward : Z) (s : store) : store * (Z * Z) :=
  let '(s1, new_gold) := hincrby_gold pid reward s in
  let '(s2, new_clicks) := incr_clicks pid s1 in
  (zadd_lb_clicks pid new_clicks (zadd_lb_gold pid new_gold s2), (new_gold, new_clicks)).

(** The combo read by [click]: the live value of [combo:<id>], else 0. *)
Definition current_combo (s : store) (pid : string) (now_ms : Z) : Z :=
  default 0 (get_alive now_ms (combo s !! pid)).

(** What [click] does once both gates are passed: the cooldown marker, the
    reward, the Lua script and the combo. *)
Definition click_pay (s : store) (player_id : string) (now_ms : Z)
    (is_critical : bool) (cooldown_ms window_ms max_hits : Z)
  : store * click_response :=
  let s3 := if 0 <? cooldown_ms
            then set_cooldown (<[player_id := Expiring 1 (now_ms + cooldown_ms)]> (cooldown s)) s
            else s in
  (* C. reward *)
  let combo_now := current_combo s3 player_id now_ms in
  let total_reward := click_reward combo_now is_critical in
  let '(s4, (new_gold, new_clicks)) := click_script player_id total_reward s3 in
  let s5 := set_combo (<[player_id := Expiring (combo_now + 1) (now_ms + 10 * 1000)]> (combo s4)) s4 in
  (s5, ClickAccepted (ClickReply total_reward new_gold (combo_now + 1) is_critical
                        new_clicks cooldown_ms window_ms max_hits)).

Definition click (s : store) (player_id : string) (now_ms : Z) (is_critical : bool)
  : store * click_response :=
  match players s !! player_id with
  | None => (s, ClickNotFound)
  | Some _ =>
    let cooldown_ms := default 500 (cfg_cooldown_ms s) in
    let window_ms := default 1000 (cfg_window_ms s) in
    let max_hits := default 3 (cfg_max_hits s) in
    (* A. sliding window *)
    let w := zremrangebyscore 0 (now_ms - window_ms) (rate_window s player_id) in
    let s1 := put_rate_window player_id w s in
    let current_hits := Z.of_nat (size w) in
    if max_hits <=? current_hits then
      let retry_after_ms :=
        match zset_oldest w with
        | Some oldest_ts => Z.max 0 (oldest_ts + window_ms - now_ms)
        | None => 0
        end in
      (s1, ClickThrottled retry_after_ms window_ms max_hits)
    else
      let s2 := put_rate_window player_id ({[now_ms]} ∪ w) s1 in
      (* B. cooldown *)
      match get_alive now_ms (cooldown s2 !! player_id) with
      | Some _ =>
        let ttl_ms := default 0 (ex_deadline <$> cooldown s2 !! player_id) - now_ms in
        (s2, ClickCooldown (if 0 <? ttl_ms then ttl_ms else cooldown_ms))
      | None => click_pay s2 player_id now_ms is_critical cooldown_ms window_ms max_hits
      end
  end.

(** ** Accounts *)

Inductive login_response :=
| LoginNameMissing                       (* 400 *)
| LoginExisting (player_id : string)     (* 200, the name was known *)
| LoginCreated (player_id : string).     (* 200, a new player *)

(** [player_login]: the scan over [player:*] for the name (in the order in
    which the store lists its keys), else a new player whose id is the
    decimal rendering of the clock in ms. *)
Definition player_login (s : store) (name : string) (now_ms : Z)
  : store * login_response :=
  if decide (name = "") then (s, LoginNameMissing)
  else
    match list_find (λ kv : string * player, username kv.2 = Some name)
                    (map_to_list (players s)) with
    | Some (_, (player_id, p)) =>
      (set_players (<[player_id := Player (username p) (gold p) (Some now_ms)]> (players s)) s,
       LoginExisting player_id)
    | None =>
      let player_id := pretty now_ms in
      let s1 := set_players (<[player_id := Player (Some name) 1000 (Some now_ms)]> (players s)) s in
      let s2 := zadd_lb_gold player_id 1000 s1 in
      let s3 := zadd_lb_clicks player_id 0 s2 in
      (s3, LoginCreated player_id)
    end.

(** ** The shop *)

Inductive buy_reject := OutOfStock | InsufficientFunds.

Inductive script_result :=
| ScriptRejected (why : buy_reject)      (* {0, message} *)
| ScriptDone (total_cost new_gold : Z)   (* {1, message, total_cost, new_gold} *)
| ScriptError.                           (* the script raised *)

(** The Lua script of [shop_buy], run on an item that exists.  When the
    player hash has no [gold], [player_gold] is nil and the comparison
    raises, before anything is written. *)
Definition buy_script (s : store) (player_id item_id : string) (it : item)
    (quantity : Z) : store * script_result :=
  match stock s !! item_id with
  | None => (s, ScriptRejected OutOfStock)
  | Some stock_now =>
    if stock_now <? quantity then (s, ScriptRejected OutOfStock)
    else
      let price := item_price it in
      match hget_gold s player_id with
      | None => (s, ScriptError)
      | Some player_gold =>
        let total_cost := price * quantity in
        if player_gold <? total_cost then (s, ScriptRejected InsufficientFunds)
        else
          let '(s1, new_gold) := hincrby_gold player_id (- total_cost) s in
          let s2 := set_stock (<[item_id := stock_now - quantity]> (stock s1)) s1 in
          let s3 := zadd_lb_gold player_id new_gold s2 in
          (s3, ScriptDone total_cost new_gold)
      end
  end.

(** [RPUSH inventory:<id> item]. *)
Definition rpush_inventory (pid : string) (x : inventory_item) (s : store) : store :=
  set_inventory (<[pid := default [] (inventory s !! pid) ++ [x]]> (inventory s)) s.

Inductive buy_response :=
| BuyItemNotFound                        (* 404 *)
| BuyRejected (why : buy_reject)         (* 400 *)
| BuyRaised                              (* 500 *)
| BuyOk (total_cost new_gold : Z).       (* 200 *)

(** [shop_buy].  [draw k] is what the [k]-th turn of the loop reads from the
    clock and the random generator: the [unique_id] and [acquired_at] of the
    item it appends.  [range(quantity)] is empty for [quantity <= 0]. *)
Definition shop_buy (s : store) (player_id item_id : string) (quantity : Z)
    (draw : nat → Z * Z) : store * buy_response :=
  match items s !! item_id with
  | None => (s, BuyItemNotFound)
  | Some it =>
    match buy_script s player_id item_id it quantity with
    | (s1, ScriptRejected why) => (s1, BuyRejected why)
    | (s1, ScriptError) => (s1, BuyRaised)
    | (s1, ScriptDone total_cost new_gold) =>
      let push s' k := rpush_inventory player_id
                         (InventoryItem item_id (item_name it) (draw k).1 (draw k).2) s' in
      (foldl push s1 (seq 0 (Z.to_nat quantity)), BuyOk total_cost new_gold)
    end
  end.

(** ** Sorted sets read by rank *)

(** Redis orders a sorted set by score, and members of equal score by their
    bytes. *)
Definition zset_le (a b : string * Z) : Prop :=
  a.2 < b.2 ∨ (a.2 = b.2 ∧ String.le a.1 b.1).

Global Instance zset_le_dec : RelDecision zset_le.
Proof. intros a b. unfold zset_le. apply _. Defined.

(** All the members with their scores, lowest first. *)
Definition zset_ascending (z : gmap string Z) : list (string * Z) :=
  merge_sort zset_le (map_to_list z).

(** The inclusive index range of [ZRANGE]/[ZREVRANGE], negative indexes
    counting from the end. *)
Definition redis_range {A} (start stop : Z) (l : list A) : list A :=
  let llen := Z.of_nat (length l) in
  let start := if start <? 0 then llen + start else start in
  let stop := if stop <? 0 then llen + stop else stop in
  let start := if start <? 0 then 0 else start in
  if (stop <? start) || (llen <=? start) then []
  else
    let stop := if llen <=? stop then llen - 1 else stop in
    take (Z.to_nat (stop - start + 1)) (drop (Z.to_nat start) l).

Definition zrange (z : gmap string Z) (start stop : Z) : list (string * Z) :=
  redis_range start stop (zset_ascending z).

Definition zrevrange (z : gmap string Z) (start stop : Z) : list (string * Z) :=
  redis_range start stop (reverse (zset_ascending z)).

(** ** Auctions *)

Inductive create_response :=
| CreateItemNotFound                     (* 404 *)
| CreateRaised                           (* 500 *)
| CreateOk (auction_id : string).        (* 200 *)

(** The first index of [inv] whose [unique_id] is [uid]. *)
Definition find_unique (uid : Z) (inv : list inventory_item)
  : option (nat * inventory_item) :=
  list_find (λ d, unique_id d = uid) inv.

(** [auction_create].  [LSET idx "__DEL__"] then [LREM 1 "__DEL__"] takes the
    entry at [idx] out of the list.  A seller without [username] makes
    [HSET] raise on the [None] value, after the item has left the list. *)
Definition auction_create (s : store) (pid : string) (uid : Z)
    (starting_price : Z) (now_ms : Z) : store * create_response :=
  let inv := default [] (inventory s !! pid) in
  match find_unique uid inv with
  | None => (s, CreateItemNotFound)
  | Some (idx, it) =>
    let inv' := delete idx inv in
    let s1 := set_inventory (match inv' with
                             | [] => delete pid (inventory s)
                             | _ => <[pid := inv']> (inventory s)
                             end) s in
    let auction_id := "auction:" +:+ pretty now_ms in
    match players s1 !! pid ≫= username with
    | None => (s1, CreateRaised)
    | Some seller_name =>
      let auction_data := Auction pid seller_name (inv_item_id it) (inv_name it)
                            starting_price "" "" now_ms in
      let s2 := set_auctions (<[auction_id := auction_data]> (auctions s1)) s1 in
      let s3 := set_active (<[auction_id := now_ms]> (active s2)) s2 in
      (s3, CreateOk auction_id)
    end
  end.

(** [auction_list]: the active ids, oldest first, whose hash exists. *)
Definition auction_list (s : store) : list (string * auction) :=
  omap (λ e : string * Z, (λ a, (e.1, a)) <$> auctions s !! e.1)
       (zrange (active s) 0 (-1)).

Inductive bid_response :=
| BidAuctionNotFound                     (* 404 *)
| BidTooLow                              (* 400 *)
| BidInsufficientFunds                   (* 400 *)
| BidRaised                              (* 500 *)
| BidOk (new_gold : Z).                  (* 200 *)

(** [auction_bid].  [aid] is the full key of the auction.  [int(None)] raises
    for a bidder without [gold]; [HSET] raises on a [None] name, after the
    balances have moved. *)
Definition auction_bid (s : store) (aid pid : string) (bid_amount : Z)
  : store * bid_response :=
  match auctions s !! aid with
  | None => (s, BidAuctionNotFound)
  | Some auction_data =>
    let price := current_price auction_data in
    if bid_amount <=? price then (s, BidTooLow)
    else
      match hget_gold s pid with
      | None => (s, BidRaised)
      | Some player_gold =>
        if player_gold <? bid_amount then (s, BidInsufficientFunds)
        else
          let prev_bidder := highest_bidder auction_data in
          let s1 := if decide (prev_bidder = "") then s
                    else let '(s', new_prev_gold) := hincrby_gold prev_bidder price s in
                         zadd_lb_gold prev_bidder new_prev_gold s' in
          let '(s2, new_gold) := hincrby_gold pid (- bid_amount) s1 in
          let s3 := zadd_lb_gold pid new_gold s2 in
          match players s3 !! pid ≫= username with
          | None => (s3, BidRaised)
          | Some name =>
            let a' := Auction (seller auction_data) (seller_name auction_data)
                        (auc_item_id auction_data) (auc_item_name auction_data)
                        bid_amount pid name (created_at auction_data) in
            (set_auctions (<[aid := a']> (auctions s3)) s3, BidOk new_gold)
          end
      end
  end.

Inductive buyout_response :=
| BuyoutNoPlayer                         (* 400 *)
| BuyoutAuctionNotFound                  (* 404 *)
| BuyoutInsufficientFunds                (* 400 *)
| BuyoutOk (buyer_gold seller_gold : Z). (* 200 *)

(** The key of an auction as [auction_buy] builds it. *)
Definition auction_key_of (auction_id : string) : string :=
  if String.prefix "auction:" auction_id then auction_id
  else "auction:" +:+ auction_id.

(** [auction_buy].  The leaderboard is written with one [ZADD] of the dict
    [{buyer_id: new_buyer_gold, seller_id: new_seller_gold}], in which the
    seller's entry replaces the buyer's when both are the same player. *)
Definition auction_buy (s : store) (auction_id buyer_id : string)
    (uid stamp : Z) : store * buyout_response :=
  if decide (buyer_id = "") then (s, BuyoutNoPlayer)
  else
    let auction_key := auction_key_of auction_id in
    match auctions s !! auction_key with
    | None => (s, BuyoutAuctionNotFound)
    | Some auction_data =>
      let seller_id := seller auction_data in
      let price := current_price auction_data in
      let buyer_gold := gold_of s buyer_id in
      if buyer_gold <? price then (s, BuyoutInsufficientFunds)
      else
        let '(s1, new_buyer_gold) := hincrby_gold buyer_id (- price) s in
        let '(s2, new_seller_gold) := hincrby_gold seller_id price s1 in
        let s3 := zadd_lb_gold seller_id new_seller_gold
                    (zadd_lb_gold buyer_id new_buyer_gold s2) in
        let s4 := rpush_inventory buyer_id
                    (InventoryItem (auc_item_id auction_data)
                       (auc_item_name auction_data) uid stamp) s3 in
        let s5 := set_auctions (delete auction_key (auctions s4)) s4 in
        let s6 := set_active (delete auction_key (active s5)) s5 in
        (s6, BuyoutOk new_buyer_gold new_seller_gold)
    end.

(** ** Leaderboards *)

Record leaderboard_entry := LeaderboardEntry {
  lb_rank : Z;
  lb_player_id : string;
  lb_username : option string;
  lb_score : Z
}.

(** The sorted set [leaderboard:<board_type>]; the server only ever writes
    the boards [gold] and [clicks]. *)
Definition board (s : store) (board_type : string) : gmap string Z :=
  if decide (board_type = "gold") then lb_gold s
  else if decide (board_type = "clicks") then lb_clicks s
  else ∅.

(** [enumerate(top, start)] with the row built for each member. *)
Fixpoint number_rows (s : store) (rank : Z) (top : list (string * Z))
  : list leaderboard_entry :=
  match top with
  | [] => []
  | (pid, score) :: rest =>
    LeaderboardEntry rank pid (players s !! pid ≫= username) score
      :: number_rows s (rank + 1) rest
  end.

Definition get_leaderboard (s : store) (board_type : string) (limit : Z)
  : list leaderboard_entry :=
  number_rows s 1 (zrevrange (board s board_type) 0 (limit - 1)).

(** ** Settings and seed data *)

Definition require_admin (admin_password pwd : string) : bool :=
  if decide (pwd ≠ admin_password) then false else true.

(** [admin_set_cooldown]: a negative value is stored as 0. *)
Definition admin_set_cooldown (s : store) (admin_password pwd : string)
    (cooldown_ms : Z) : store * option Z :=
  if require_admin admin_password pwd then
    let cooldown_ms := if cooldown_ms <? 0 then 0 else cooldown_ms in
    (set_cfg_cooldown_ms (Some cooldown_ms) s, Some cooldown_ms)
  else (s, None).

(** [admin_set_rate_limit]: a window of 0 or less is stored as 1000, a
    number of hits of 0 or less as 1. *)
Definition admin_set_rate_limit (s : store) (admin_password pwd : string)
    (window_ms max_hits : Z) : store * option (Z * Z) :=
  if require_admin admin_password pwd then
    let window_ms := if window_ms <=? 0 then 1000 else window_ms in
    let max_hits := if max_hits <=? 0 then 1 else max_hits in
    (set_cfg_max_hits (Some max_hits) (set_cfg_window_ms (Some window_ms) s),
     Some (window_ms, max_hits))
  else (s, None).

(** The catalogue of [init_game_data], each item with its [name] and its
    [price] (the other attributes are never read by a handler). *)
Definition catalogue : list (string * item) :=
  [ ("sword_bronze", Item "青銅劍" 100);
    ("sword_silver", Item "白銀劍" 500);
    ("sword_gold", Item "黃金劍" 2000);
    ("armor_leather", Item "皮甲" 150);
    ("armor_iron", Item "鐵甲" 600);
    ("potion_health", Item "生命藥水" 50) ].

(** [init_game_data]: each item and each stock of 100 is written only when
    its key is absent. *)
Definition init_game_data (s : store) : store :=
  foldl (λ s' (e : string * item),
           let s1 := match items s' !! e.1 with
                     | None => set_items (<[e.1 := e.2]> (items s')) s'
                     | Some _ => s'
                     end in
           match stock s1 !! e.1 with
           | None => set_stock (<[e.1 := 100]> (stock s1)) s1
           | Some _ => s1
           end) s catalogue.

(** ** Runs of requests *)


(** ** Notions used in the statements, and the scenarios *)

(** The settings as [click] reads them. *)
Definition cooldown_setting (s : store) : Z := default 500 (cfg_cooldown_ms s).
Definition window_setting (s : store) : Z := default 1000 (cfg_window_ms s).
Definition max_hits_setting (s : store) : Z := default 3 (cfg_max_hits s).

(** The window record of a player once [click] has pruned it at [now_ms]. *)
Definition pruned_window (s : store) (pid : string) (now_ms : Z) : gset Z :=
  zremrangebyscore 0 (now_ms - window_setting s) (rate_window s pid).

(** Combos are counts of clicks: every stored combo is non-negative. *)
Definition combo_wf (s : store) : Prop :=
  ∀ pid e, combo s !! pid = Some e → 0 ≤ ex_value e.

(** The store once the window gate has let a click through. *)
Definition window_passed (s : store) (pid : string) (now_ms : Z) : store :=
  put_rate_window pid ({[now_ms]} ∪ pruned_window s pid now_ms) s.

Definition is_accepted (r : click_response) : Prop :=
  match r with ClickAccepted _ => True | _ => False end.




(** The store after an accepted bid. *)
Definition bid_refunded (s : store) (a : auction) : store :=
  if decide (highest_bidder a = "") then s
  else zadd_lb_gold (highest_bidder a)
         (gold_of s (highest_bidder a) + current_price a)
         (hincrby_gold (highest_bidder a) (current_price a) s).1.

Definition bid_debited (s : store) (a : auction) (pid : string) (amount : Z) : store :=
  zadd_lb_gold pid (gold_of (bid_refunded s a) pid + - amount)
    (hincrby_gold pid (- amount) (bid_refunded s a)).1.


(** [HINCRBY] on a balance followed by the [ZADD] of the new balance: the
    unit from which every handler that moves gold is built. *)
Definition move_gold (pid : string) (d : Z) (s : store) : store :=
  zadd_lb_gold pid (gold_of s pid + d) (hincrby_gold pid d s).1.

(** The entries of the two leaderboards for the player hash [p] of [pid]:
    the gold score is the balance; the click score is the click counter
    whenever there is one, and 0 before the first click of a player who
    came in through [player_login].  [consistent] adds that a click score is
    never anything else than the counter. *)
Definition ranked (s : store) (pid : string) (p : player) : Prop :=
  lb_gold s !! pid = Some (gold p)
  ∧ (∀ n, clicks s !! pid = Some n → lb_clicks s !! pid = Some n)
  ∧ (is_Some (username p) → lb_clicks s !! pid = Some (default 0 (clicks s !! pid))).

Record consistent (s : store) : Prop := Consistent {
  cons_ranked : ∀ pid p, players s !! pid = Some p → ranked s pid p;
  cons_counted : ∀ pid, is_Some (clicks s !! pid) → is_Some (players s !! pid);
  cons_combo : combo_wf s;
  cons_scores : ∀ pid v, lb_clicks s !! pid = Some v → v = default 0 (clicks s !! pid)
}.

(** Two stores with the same ledger: players, counters, boards and combos. *)
Definition same_ledger (s s' : store) : Prop :=
  players s' = players s ∧ clicks s' = clicks s ∧ lb_gold s' = lb_gold s
  ∧ lb_clicks s' = lb_clicks s ∧ combo s' = combo s.

Inductive request :=
| ReqSeed
| ReqLogin (name : string) (now_ms : Z)
| ReqClick (player_id : string) (now_ms : Z) (is_critical : bool)
| ReqShopBuy (player_id item_id : string) (quantity : Z) (draw : nat → Z * Z)
| ReqAuctionCreate (pid : string) (uid starting_price now_ms : Z)
| ReqAuctionBid (aid pid : string) (bid_amount : Z)
| ReqAuctionBuy (auction_id buyer_id : string) (uid stamp : Z)
| ReqSetCooldown (admin_password pwd : string) (cooldown_ms : Z)
| ReqSetRateLimit (admin_password pwd : string) (window_ms max_hits : Z).

(** The store after a request has been served. *)
Definition handle (s : store) (r : request) : store :=
  match r with
  | ReqSeed => init_game_data s
  | ReqLogin name now_ms => (player_login s name now_ms).1
  | ReqClick pid now_ms b => (click s pid now_ms b).1
  | ReqShopBuy pid item_id q draw => (shop_buy s pid item_id q draw).1
  | ReqAuctionCreate pid uid price now_ms => (auction_create s pid uid price now_ms).1
  | ReqAuctionBid aid pid amount => (auction_bid s aid pid amount).1
  | ReqAuctionBuy auction_id buyer_id uid stamp =>
    (auction_buy s auction_id buyer_id uid stamp).1
  | ReqSetCooldown admin pwd c => (admin_set_cooldown s admin pwd c).1
  | ReqSetRateLimit admin pwd w m => (admin_set_rate_limit s admin pwd w m).1
  end.

(** Player ids are renderings of the clock: a login finds no player hash
    under the id that its instant would give. *)
Definition clock_fresh (s : store) (r : request) : Prop :=
  match r with
  | ReqLogin _ now_ms => players s !! pretty now_ms = None
  | _ => True
  end.

Inductive reachable : store → Prop :=
| reach_empty : reachable empty_store
| reach_step s r : reachable s → clock_fresh s r → reachable (handle s r).

(** The order of the rows of a leaderboard: higher score first, and for
    equal scores the greater player id (as bytes) first. *)
Definition row_before (r1 r2 : leaderboard_entry) : Prop :=
  lb_score r2 < lb_score r1
  ∨ (lb_score r2 = lb_score r1 ∧ String.le (lb_player_id r2) (lb_player_id r1)).

(** Closed goals are settled by evaluation. *)
Ltac by_computation := vm_compute; first [reflexivity | discriminate].

(** What a handler leaves alone is read off its unfolding. *)
Ltac frame_tac :=
  unfold hincrby_gold, zadd_lb_gold, zadd_lb_clicks, rpush_inventory;
  repeat (simpl; case_match); simpl; repeat split; reflexivity.

(** The seeded catalogue, then the first logins: "ann" at instant 1000 and
    "bob" at instant 2000 get the ids ["1000"] and ["2000"]. *)
Definition seeded : store := handle empty_store ReqSeed.
Definition with_ann : store := handle seeded (ReqLogin "ann" 1000).
Definition with_bob : store := handle with_ann (ReqLogin "bob" 2000).

Definition bronze : item := Item "青銅劍" 100.

(** The draws of the scenarios: the [k]-th item gets the id [k + 7]. *)
Definition demo_draw (k : nat) : Z * Z := (Z.of_nat k + 7, 9).

(** Five swords left in the shop. *)
Definition five_left : store :=
  set_stock (<["sword_bronze" := 5]> (stock with_ann)) with_ann.

(** ann buys a sword and lists it for 50; bob then bids 60. *)
Definition ann_has_sword : store :=
  handle with_bob (ReqShopBuy "1000" "sword_bronze" 1 demo_draw).
Definition listed : store :=
  handle ann_has_sword (ReqAuctionCreate "1000" 7 50 4000).
Definition bob_leads : store :=
  handle listed (ReqAuctionBid "auction:4000" "2000" 60).

(** The cooldown set to 100 ms, and to none at all. *)
Definition quick : store :=
  handle with_ann (ReqSetCooldown "admin123" "admin123" 100).

Definition sword_60 : auction :=
  Auction "1000" "ann" "sword_bronze" "青銅劍" 60 "2000" "bob" 4000.

(** A click 200 ms after an accepted one, under the default cooldown of
    500 ms. *)
Definition ann_clicked : store := handle with_ann (ReqClick "1000" 5000 false).

(** A listing for nothing, bought out under an id that has no hash: the
    hash that the buyout creates holds a balance and no name, and the sword
    is in its inventory. *)
Definition free_listing : store :=
  handle ann_has_sword (ReqAuctionCreate "1000" 7 0 4000).
Definition ghost_owns : store :=
  handle free_listing (ReqAuctionBuy "auction:4000" "ghost" 8 9).

Definition sword_7 : inventory_item := InventoryItem "sword_bronze" "青銅劍" 7 9.
Definition sword_50 : auction :=
  Auction "1000" "ann" "sword_bronze" "青銅劍" 50 "" "" 4000.

(** ** Read-only handlers *)

(** [ZREVRANK key member]: the 0-based place of the member, highest score
    first. *)
Definition zrevrank (z : gmap string Z) (member : string) : option nat :=
  fst <$> list_find (λ e : string * Z, e.1 = member) (reverse (zset_ascending z)).

(** The answer of [get_player]: the fields of the hash, then the fields that
    the handler adds. *)
Record player_view := PlayerView {
  pv_player : player;
  pv_player_id : string;
  pv_inventory : list inventory_item;
  pv_gold_rank : option Z;
  pv_click_rank : option Z;
  pv_total_clicks : Z;
  pv_current_combo : Z
}.

(** [get_player]; [None] is the 404 answer.  The combo is read at the
    instant of the request. *)
Definition get_player (s : store) (player_id : string) (now_ms : Z)
  : option player_view :=
  match players s !! player_id with
  | None => None
  | Some pdata =>
    let gold_rank := zrevrank (lb_gold s) player_id in
    let click_rank := zrevrank (lb_clicks s) player_id in
    Some (PlayerView pdata player_id (default [] (inventory s !! player_id))
            ((λ r, Z.of_nat r + 1) <$> gold_rank)
            ((λ r, Z.of_nat r + 1) <$> click_rank)
            (default 0 (clicks s !! player_id))
            (current_combo s player_id now_ms))
  end.

(** [":" in sub]. *)
Fixpoint has_colon (sub : string) : bool :=
  match sub with
  | EmptyString => false
  | String c rest =>
    if String.eqb (String c EmptyString) ":" then true else has_colon rest
  end.

Record shop_entry := ShopEntry {
  se_id : string;
  se_item : item;
  se_stock : Z
}.

(** [shop_items]: the keys [item:<id>] in the order in which the store lists
    them, those with a further colon skipped, each with its stock counter
    (0 when there is none). *)
Definition shop_items (s : store) : list shop_entry :=
  omap (λ kv : string * item,
          if has_colon kv.1 then None
          else Some (ShopEntry kv.1 kv.2 (default 0 (stock s !! kv.1))))
       (map_to_list (items s)).

(** [admin_get_config]; [None] is the 401 answer. *)
Definition admin_get_config (s : store) (admin_password pwd : string)
  : option (Z * Z * Z) :=
  if require_admin admin_password pwd then
    Some (default 500 (cfg_cooldown_ms s), default 1000 (cfg_window_ms s),
          default 3 (cfg_max_hits s))
  else None.

(** ** Further notions used in the statements *)

(** What [init_game_data] does for one item of the catalogue. *)
Definition seed_one (s' : store) (e : string * item) : store :=
  let s1 := match items s' !! e.1 with
            | None => set_items (<[e.1 := e.2]> (items s')) s'
            | Some _ => s'
            end in
  match stock s1 !! e.1 with
  | None => set_stock (<[e.1 := 100]> (stock s1)) s1
  | Some _ => s1
  end.

(** The settings as the two admin handlers leave them. *)
Definition settings_ok (s : store) : Prop :=
  0 ≤ cooldown_setting s ∧ 0 < window_setting s ∧ 1 ≤ max_hits_setting s.

(** No two player hashes carry the same name. *)
Definition names_unique (s : store) : Prop :=
  ∀ pid1 pid2 p1 p2 name,
    players s !! pid1 = Some p1 → players s !! pid2 = Some p2 →
    username p1 = Some name → username p2 = Some name → pid1 = pid2.

Definition stock_nonneg (s : store) : Prop :=
  ∀ item_id k, stock s !! item_id = Some k → 0 ≤ k.

(** The hashes [auction:*] and the members of [auctions:active] go together,
    and their keys carry the prefix. *)
Definition auctions_indexed (s : store) : Prop :=
  (∀ k, is_Some (active s !! k) ↔ is_Some (auctions s !! k))
  ∧ (∀ k, is_Some (auctions s !! k) → auction_key_of k = k).

(** The goods in the store are those of the catalogue: the item hashes, and
    the [item_id] and [name] of every inventory entry and of every auction. *)
Definition genuine (item_id name : string) : Prop :=
  ∃ it, (item_id, it) ∈ catalogue ∧ item_name it = name.

Definition goods_genuine (s : store) : Prop :=
  (∀ id it, items s !! id = Some it → (id, it) ∈ catalogue)
  ∧ (∀ pid d, d ∈ default [] (inventory s !! pid) →
       genuine (inv_item_id d) (inv_name d))
  ∧ (∀ k a, auctions s !! k = Some a → genuine (auc_item_id a) (auc_item_name a)).

(** * Properties *)

(** ** Store primitives *)

Lemma rate_window_put pid w s : rate_window (put_rate_window pid w s) pid = w.
Proof.
  unfold rate_window, put_rate_window; simpl.
  destruct (decide (w = ∅)) as [->|Hw].
  - by rewrite lookup_delete_eq.
  - by rewrite lookup_insert_eq.
Qed.

Lemma elem_of_zremrangebyscore lo hi w t :
  t ∈ zremrangebyscore lo hi w ↔ t ∈ w ∧ ¬ (lo ≤ t ≤ hi).
Proof. unfold zremrangebyscore. rewrite elem_of_filter. tauto. Qed.





(** ** The click handler *)

Lemma current_combo_nonneg s pid now_ms : combo_wf s → 0 ≤ current_combo s pid now_ms.
Proof.
  intros Hwf. unfold current_combo, get_alive.
  destruct (combo s !! pid) as [e|] eqn:E; simpl; [|lia].
  destruct (alive now_ms e); simpl; [|lia]. by eapply Hwf.
Qed.

Lemma click_reward_pos c b : 0 ≤ c → 0 < click_reward c b.
Proof. intros. unfold click_reward. destruct b; lia. Qed.

(** The three ways out of [click] for a known player. *)
Lemma click_throttled s pid p now_ms b :
  players s !! pid = Some p →
  max_hits_setting s ≤ Z.of_nat (size (pruned_window s pid now_ms)) →
  click s pid now_ms b =
    (put_rate_window pid (pruned_window s pid now_ms) s,
     ClickThrottled
       (match zset_oldest (pruned_window s pid now_ms) with
        | Some oldest_ts => Z.max 0 (oldest_ts + window_setting s - now_ms)
        | None => 0
        end) (window_setting s) (max_hits_setting s)).
Proof.
  intros Hp Hm. unfold click. rewrite Hp.
  fold (window_setting s) (max_hits_setting s) (cooldown_setting s).
  fold (pruned_window s pid now_ms).
  by rewrite (proj2 (Z.leb_le _ _) Hm).
Qed.

Lemma click_windowed s pid p now_ms b :
  players s !! pid = Some p →
  Z.of_nat (size (pruned_window s pid now_ms)) < max_hits_setting s →
  click s pid now_ms b =
    let s2 := put_rate_window pid ({[now_ms]} ∪ pruned_window s pid now_ms)
                (put_rate_window pid (pruned_window s pid now_ms) s) in
    match get_alive now_ms (cooldown s !! pid) with
    | Some _ =>
      let ttl_ms := default 0 (ex_deadline <$> cooldown s !! pid) - now_ms in
      (s2, ClickCooldown (if 0 <? ttl_ms then ttl_ms else cooldown_setting s))
    | None => click_pay s2 pid now_ms b (cooldown_setting s) (window_setting s)
                (max_hits_setting s)
    end.
Proof.
  intros Hp Hm. unfold click. rewrite Hp.
  fold (window_setting s) (max_hits_setting s) (cooldown_setting s).
  fold (pruned_window s pid now_ms).
  by rewrite (proj2 (Z.leb_gt _ _) Hm).
Qed.

(** The store and the answer of [click_pay], field by field. *)
Lemma click_pay_spec s pid now_ms b c w m :
  let k := current_combo s pid now_ms in
  let reward := click_reward k b in
  let g := gold_of s pid + reward in
  let n := default 0 (clicks s !! pid) + 1 in
  ∃ s', click_pay s pid now_ms b c w m =
          (s', ClickAccepted (ClickReply reward g (k + 1) b n c w m))
    ∧ gold_of s' pid = g
    ∧ (∀ q, q ≠ pid → players s' !! q = players s !! q)
    ∧ (players s' !! pid ≫= username = players s !! pid ≫= username)
    ∧ is_Some (players s' !! pid)
    ∧ clicks s' = <[pid := n]> (clicks s)
    ∧ lb_gold s' = <[pid := g]> (lb_gold s)
    ∧ lb_clicks s' = <[pid := n]> (lb_clicks s)
    ∧ combo s' = <[pid := Expiring (k + 1) (now_ms + 10 * 1000)]> (combo s)
    ∧ cooldown s' = (if 0 <? c then <[pid := Expiring 1 (now_ms + c)]> (cooldown s)
                     else cooldown s)
    ∧ rate s' = rate s ∧ inventory s' = inventory s ∧ items s' = items s
    ∧ stock s' = stock s ∧ auctions s' = auctions s ∧ active s' = active s
    ∧ cfg_cooldown_ms s' = cfg_cooldown_ms s ∧ cfg_window_ms s' = cfg_window_ms s
    ∧ cfg_max_hits s' = cfg_max_hits s.
Proof.
  intros k reward g n. unfold click_pay.
  assert (Hk : ∀ v, current_combo (set_cooldown v s) pid now_ms = k) by done.
  destruct (0 <? c) eqn:Hc; [rewrite Hk|fold k];
    fold reward; unfold click_script, hincrby_gold, incr_clicks; simpl;
    (eexists; split; [reflexivity|]); repeat split; try done;
    subst g; unfold gold_of, hget_gold; simpl;
    try (intros q Hq; by rewrite lookup_insert_ne);
    rewrite lookup_insert_eq; by destruct (players s !! pid).
Qed.

Lemma put_rate_window_twice pid w1 w2 s :
  put_rate_window pid w2 (put_rate_window pid w1 s) = put_rate_window pid w2 s.
Proof.
  unfold put_rate_window, set_rate; simpl. f_equal.
  destruct (decide (w2 = ∅)), (decide (w1 = ∅));
    by rewrite ?delete_delete_eq, ?delete_insert_eq, ?insert_delete_eq,
               ?insert_insert_eq.
Qed.

Lemma click_accepted_inv s pid now_ms b s' r :
  click s pid now_ms b = (s', ClickAccepted r) →
  is_Some (players s !! pid)
  ∧ Z.of_nat (size (pruned_window s pid now_ms)) < max_hits_setting s
  ∧ get_alive now_ms (cooldown s !! pid) = None
  ∧ click_pay (window_passed s pid now_ms) pid now_ms b (cooldown_setting s)
      (window_setting s) (max_hits_setting s) = (s', ClickAccepted r).
Proof.
  intros H. destruct (players s !! pid) as [p|] eqn:Hp.
  2:{ unfold click in H. by rewrite Hp in H. }
  destruct (Z_lt_le_dec (Z.of_nat (size (pruned_window s pid now_ms)))
              (max_hits_setting s)) as [Hlt|Hge].
  2:{ by rewrite (click_throttled _ _ _ _ _ Hp Hge) in H. }
  rewrite (click_windowed _ _ _ _ _ Hp Hlt) in H. simpl in H.
  rewrite put_rate_window_twice in H. fold (window_passed s pid now_ms) in H.
  destruct (get_alive now_ms (cooldown s !! pid)); [done|]. eauto.
Qed.


(** C6.  A click that passes the sliding-window gate and is then stopped by
    a live cooldown marker is answered 429 and leaves its instant in the
    window record of the player, while the balances, the click counters, the
    combos and both leaderboards are what they were. *)
Theorem cooldown_reject_consumes_slot s pid p e now_ms b :
  players s !! pid = Some p →
  Z.of_nat (size (pruned_window s pid now_ms)) < max_hits_setting s →
  cooldown s !! pid = Some e →
  now_ms < ex_deadline e →
  ∃ s', click s pid now_ms b = (s', ClickCooldown (ex_deadline e - now_ms))
    ∧ click_status (ClickCooldown (ex_deadline e - now_ms)) = 429
    ∧ now_ms ∈ rate_window s' pid
    ∧ rate_window s' pid = {[now_ms]} ∪ pruned_window s pid now_ms
    ∧ players s' = players s
    ∧ clicks s' = clicks s
    ∧ combo s' = combo s
    ∧ cooldown s' = cooldown s
    ∧ lb_gold s' = lb_gold s
    ∧ lb_clicks s' = lb_clicks s.
Proof.
  intros Hp Hlt He Hnow. exists (window_passed s pid now_ms).
  rewrite (click_windowed _ _ _ _ _ Hp Hlt). simpl.
  rewrite put_rate_window_twice, He. simpl. unfold alive. simpl.
  rewrite (proj2 (Z.ltb_lt _ _) Hnow).
  assert ((0 <? ex_deadline e - now_ms) = true) as -> by (apply Z.ltb_lt; lia).
  unfold window_passed. rewrite rate_window_put.
  repeat split; try done. set_solver.
Qed.

(** C7.  An accepted click pays [10 + min(combo*2, 50)], twice that when the
    critical draw fires, where [combo] is the live combo of the player before
    the click (0 when absent or expired); the reward is positive; the answer
    reports [combo + 1], which is also the combo stored for ten seconds. *)
Theorem accepted_click_reward s pid now_ms is_critical s' r :
  combo_wf s →
  click s pid now_ms is_critical = (s', ClickAccepted r) →
  let combo_before := current_combo s pid now_ms in
  ok_reward r = (if is_critical then (10 + Z.min (combo_before * 2) 50) * 2
                 else 10 + Z.min (combo_before * 2) 50)
  ∧ ok_critical r = is_critical
  ∧ 0 < ok_reward r
  ∧ ok_combo r = combo_before + 1
  ∧ combo s' !! pid = Some (Expiring (combo_before + 1) (now_ms + 10000)).
Proof.
  intros Hwf H k. apply click_accepted_inv in H as (_ & _ & _ & H).
  destruct (click_pay_spec (window_passed s pid now_ms) pid now_ms is_critical
              (cooldown_setting s) (window_setting s) (max_hits_setting s))
    as (s0 & Heq & _ & _ & _ & _ & _ & _ & _ & Hcombo & _).
  rewrite Heq in H. injection H as <- <-. simpl.
  change (current_combo (window_passed s pid now_ms) pid now_ms) with k in *.
  repeat split.
  - apply click_reward_pos. by apply current_combo_nonneg.
  - rewrite Hcombo. by rewrite lookup_insert_eq.
Qed.

(** ** Runs of clicks and the two gates *)








(** ** Balances *)

Lemma gold_of_lookup s pid p : players s !! pid = Some p → gold_of s pid = gold p.
Proof. intros H. unfold gold_of, hget_gold. by rewrite H. Qed.

Lemma hget_gold_of s pid g : hget_gold s pid = Some g → gold_of s pid = g.
Proof. intros H. unfold gold_of. by rewrite H. Qed.


Lemma username_hincrby pid d s q :
  players (hincrby_gold pid d s).1 !! q ≫= username = players s !! q ≫= username.
Proof.
  unfold hincrby_gold; simpl. destruct (decide (q = pid)) as [->|Hne].
  - rewrite lookup_insert_eq. by destruct (players s !! pid).
  - by rewrite lookup_insert_ne.
Qed.

(** ** The shop *)

Lemma rpush_all pid (f : nat → inventory_item) (l : list nat) : ∀ s,
  let s' := foldl (λ s' k, rpush_inventory pid (f k) s') s l in
  players s' = players s ∧ clicks s' = clicks s ∧ combo s' = combo s
  ∧ cooldown s' = cooldown s ∧ rate s' = rate s ∧ lb_gold s' = lb_gold s
  ∧ lb_clicks s' = lb_clicks s ∧ items s' = items s ∧ stock s' = stock s
  ∧ auctions s' = auctions s ∧ active s' = active s
  ∧ default [] (inventory s' !! pid) = default [] (inventory s !! pid) ++ (f <$> l)
  ∧ (∀ q, q ≠ pid → inventory s' !! q = inventory s !! q)
  ∧ (l = [] → s' = s).
Proof.
  induction l as [|k l IH]; intros s; simpl.
  - rewrite app_nil_r. by repeat split.
  - destruct (IH (rpush_inventory pid (f k) s))
      as (H1&H2&H3&H4&H5&H6&H7&H8&H9&H10&H11&H12&H13&_).
    simpl in *. rewrite H1, H2, H3, H4, H5, H6, H7, H8, H9, H10, H11.
    repeat split; try done.
    + rewrite H12. simpl. rewrite lookup_insert_eq. simpl. by rewrite <-app_assoc.
    + intros q Hq. rewrite H13 by done. simpl. by rewrite lookup_insert_ne.
Qed.




(** ** Rejections *)

Lemma auction_bid_rejected s aid pid amount s' r :
  auction_bid s aid pid amount = (s', r) →
  r = BidAuctionNotFound ∨ r = BidTooLow ∨ r = BidInsufficientFunds → s' = s.
Proof.
  unfold auction_bid. intros H Hr.
  destruct (auctions s !! aid) as [a|]; [|by injection H as <- _].
  destruct (amount <=? current_price a); [by injection H as <- _|].
  destruct (hget_gold s pid) as [g|]; [|by injection H as <- _].
  destruct (g <? amount); [by injection H as <- _|].
  exfalso. revert H.
  destruct (decide (highest_bidder a = ""));
    repeat (simpl; case_match); intros [= _ <-];
    by destruct Hr as [?|[?|?]].
Qed.

Lemma shop_buy_rejected s pid item_id q draw s' why :
  shop_buy s pid item_id q draw = (s', BuyRejected why) → s' = s.
Proof.
  unfold shop_buy, buy_script. intros H.
  destruct (items s !! item_id) as [it|]; [|done].
  destruct (stock s !! item_id) as [k|]; [|by injection H as <- _].
  destruct (k <? q); [by injection H as <- _|].
  destruct (hget_gold s pid) as [g|]; [|done].
  destruct (g <? item_price it * q); [by injection H as <- _|].
  done.
Qed.

(** C3.  A rejected bid (too low, or not covered by the bidder's gold) and a
    rejected purchase (out of stock, or not covered by the buyer's gold)
    return the store they were given: no balance, leaderboard entry, auction
    field, stock counter or inventory has changed. *)
Theorem rejections_change_nothing :
  (∀ s aid pid amount s' r,
     auction_bid s aid pid amount = (s', r) →
     r = BidTooLow ∨ r = BidInsufficientFunds → s' = s)
  ∧ (∀ s aid pid amount a,
       auctions s !! aid = Some a → amount ≤ current_price a →
       auction_bid s aid pid amount = (s, BidTooLow))
  ∧ (∀ s aid pid amount a g,
       auctions s !! aid = Some a → current_price a < amount →
       hget_gold s pid = Some g → g < amount →
       auction_bid s aid pid amount = (s, BidInsufficientFunds))
  ∧ (∀ s pid item_id q draw s' why,
       shop_buy s pid item_id q draw = (s', BuyRejected why) → s' = s)
  ∧ (∀ s pid item_id q draw it,
       items s !! item_id = Some it →
       (∀ k, stock s !! item_id = Some k → k < q) →
       shop_buy s pid item_id q draw = (s, BuyRejected OutOfStock))
  ∧ (∀ s pid item_id q draw it k g,
       items s !! item_id = Some it → stock s !! item_id = Some k → q ≤ k →
       hget_gold s pid = Some g → g < item_price it * q →
       shop_buy s pid item_id q draw = (s, BuyRejected InsufficientFunds)).
Proof.
  split; [|split; [|split; [|split; [|split]]]].
  - intros s aid pid amount s' r H Hr. eapply auction_bid_rejected; [done|tauto].
  - intros s aid pid amount a Ha Hle. unfold auction_bid. rewrite Ha.
    by destruct (Z.leb_spec amount (current_price a)); [|lia].
  - intros s aid pid amount a g Ha Hlt Hg Hlow. unfold auction_bid. rewrite Ha, Hg.
    destruct (Z.leb_spec amount (current_price a)); [lia|].
    by destruct (Z.ltb_spec g amount); [|lia].
  - apply shop_buy_rejected.
  - intros s pid item_id q draw it Hi Hk. unfold shop_buy, buy_script. rewrite Hi.
    destruct (stock s !! item_id) as [k|]; [|done].
    by destruct (Z.ltb_spec k q); [|specialize (Hk k eq_refl); lia].
  - intros s pid item_id q draw it k g Hi Hk Hq Hg Hlow.
    unfold shop_buy, buy_script. rewrite Hi, Hk, Hg.
    destruct (Z.ltb_spec k q); [lia|].
    by destruct (Z.ltb_spec g (item_price it * q)); [|lia].
Qed.

(** ** Auctions *)

Lemma hincrby_gold_pair pid d s :
  hincrby_gold pid d s = ((hincrby_gold pid d s).1, gold_of s pid + d).
Proof. done. Qed.





Lemma username_bid_debited s a pid amount q :
  players (bid_debited s a pid amount) !! q ≫= username
  = players s !! q ≫= username.
Proof.
  unfold bid_debited.
  change (players (zadd_lb_gold ?p ?v ?t)) with (players t).
  rewrite username_hincrby. unfold bid_refunded.
  destruct (decide (highest_bidder a = "")); [done|].
  change (players (zadd_lb_gold ?p ?v ?t)) with (players t).
  by rewrite username_hincrby.
Qed.








(** ** Leaderboards and the ledger *)

Lemma consistent_same_ledger s s' : same_ledger s s' → consistent s → consistent s'.
Proof.
  intros (Hp & Hc & Hg & Hl & Hk) [H1 H2 H3 H4]. split.
  - intros pid p. rewrite Hp. intros Hpl. unfold ranked. rewrite Hg, Hl, Hc.
    by apply H1.
  - intros pid. rewrite Hc, Hp. apply H2.
  - unfold combo_wf. rewrite Hk. apply H3.
  - intros pid v. rewrite Hl, Hc. apply H4.
Qed.

Lemma consistent_empty : consistent empty_store.
Proof.
  split.
  - intros pid p H. simpl in H. by rewrite lookup_empty in H.
  - intros pid [n H]. simpl in H. by rewrite lookup_empty in H.
  - intros pid e H. simpl in H. by rewrite lookup_empty in H.
  - intros pid v H. simpl in H. by rewrite lookup_empty in H.
Qed.

Lemma is_Some_insert_mono {A} (m : gmap string A) pid x q :
  is_Some (m !! q) → is_Some (<[pid := x]> m !! q).
Proof.
  intros H. destruct (decide (q = pid)) as [->|Hne].
  - rewrite lookup_insert_eq. eauto.
  - by rewrite lookup_insert_ne.
Qed.

Lemma consistent_move_gold pid d s : consistent s → consistent (move_gold pid d s).
Proof.
  intros [H1 H2 H3 H4]. split; [| |exact H3|exact H4].
  2:{ intros q Hq. unfold move_gold, hincrby_gold. simpl.
      apply is_Some_insert_mono. by apply H2. }
  intros q p'. unfold move_gold, hincrby_gold, zadd_lb_gold, ranked. simpl.
  destruct (decide (q = pid)) as [->|Hne].
  - rewrite !lookup_insert_eq. intros [= <-].
    destruct (players s !! pid) as [p|] eqn:Hp; simpl.
    + destruct (H1 pid p Hp) as (_ & Hb & Hc). by repeat split.
    + split; [done|]. split; [|by intros [? ?]].
      intros n Hn. destruct (H2 pid) as [p Hp']; [eauto|congruence].
  - rewrite !lookup_insert_ne by done. apply H1.
Qed.

Lemma consistent_click_pay s pid now_ms b c w m :
  consistent s → consistent (click_pay s pid now_ms b c w m).1.
Proof.
  intros Hcons. pose proof Hcons as [H1 H2 H3 H4].
  destruct (click_pay_spec s pid now_ms b c w m)
    as (s' & Heq & Hg & Hne & Hu & [p' Hp'] & Hcl & Hlg & Hlc & Hco & _).
  rewrite Heq. simpl. split.
  - intros q p Hq. unfold ranked. rewrite Hlg, Hlc, Hcl.
    destruct (decide (q = pid)) as [->|Hq'].
    + rewrite !lookup_insert_eq. rewrite Hp' in Hq. injection Hq as <-.
      rewrite <-(gold_of_lookup _ _ _ Hp'), Hg. split; [done|].
      split; [by intros n [= <-]|done].
    + rewrite !lookup_insert_ne by done. apply H1. by rewrite <-Hne.
  - intros q. rewrite Hcl. destruct (decide (q = pid)) as [->|Hq'].
    + eauto.
    + rewrite lookup_insert_ne, Hne by done. apply H2.
  - intros q e. rewrite Hco. destruct (decide (q = pid)) as [->|Hq'].
    + rewrite lookup_insert_eq. intros [= <-]. simpl.
      pose proof (current_combo_nonneg s pid now_ms H3). lia.
    + rewrite lookup_insert_ne by done. apply H3.
  - intros q v. rewrite Hlc, Hcl. destruct (decide (q = pid)) as [->|Hq'].
    + rewrite !lookup_insert_eq. by intros [= <-].
    + rewrite !lookup_insert_ne by done. apply H4.
Qed.

Lemma consistent_click s pid now_ms b :
  consistent s → consistent (click s pid now_ms b).1.
Proof.
  intros Hcons. destruct (players s !! pid) as [p|] eqn:Hp.
  2:{ unfold click. by rewrite Hp. }
  destruct (Z_lt_le_dec (Z.of_nat (size (pruned_window s pid now_ms)))
              (max_hits_setting s)) as [Hlt|Hge].
  2:{ rewrite (click_throttled _ _ _ _ _ Hp Hge). simpl.
      eapply consistent_same_ledger; [|done]. by repeat split. }
  rewrite (click_windowed _ _ _ _ _ Hp Hlt). cbv zeta.
  rewrite put_rate_window_twice. fold (window_passed s pid now_ms).
  assert (Hw : consistent (window_passed s pid now_ms)).
  { eapply consistent_same_ledger; [|done]. by repeat split. }
  destruct (get_alive now_ms (cooldown s !! pid)); [done|].
  by apply consistent_click_pay.
Qed.

Lemma consistent_login s name now_ms :
  consistent s → players s !! pretty now_ms = None →
  consistent (player_login s name now_ms).1.
Proof.
  intros Hcons Hfresh. pose proof Hcons as [H1 H2 H3 H4]. unfold player_login.
  assert (Hn : clicks s !! pretty now_ms = None).
  { destruct (clicks s !! pretty now_ms) eqn:E; [|done].
    destruct (H2 (pretty now_ms)) as [? ?]; [eauto|congruence]. }
  destruct (decide (name = "")); [done|].
  destruct (list_find _ _) as [[i [pid p]]|] eqn:Hfind; simpl.
  - apply list_find_Some in Hfind as (Hi & _ & _).
    apply list_elem_of_lookup_2, elem_of_map_to_list in Hi.
    split; [| |exact H3|exact H4].
    2:{ intros q Hq. simpl. apply is_Some_insert_mono. by apply H2. }
    simpl. intros q p0.
    destruct (decide (q = pid)) as [->|Hq].
    + rewrite lookup_insert_eq. intros [= <-]. apply (H1 pid p Hi).
    + rewrite lookup_insert_ne by done. apply H1.
  - split; [| |exact H3|].
    + intros q p0. unfold ranked. simpl.
      destruct (decide (q = pretty now_ms)) as [->|Hq].
      * rewrite !lookup_insert_eq. intros [= <-]. simpl.
        rewrite Hn. by repeat split.
      * rewrite !lookup_insert_ne by done. apply H1.
    + intros q Hq. simpl. apply is_Some_insert_mono. by apply H2.
    + intros q v. simpl. destruct (decide (q = pretty now_ms)) as [->|Hq].
      * rewrite lookup_insert_eq, Hn. by intros [= <-].
      * rewrite lookup_insert_ne by done. apply H4.
Qed.

Lemma consistent_shop_buy s pid item_id q draw :
  consistent s → consistent (shop_buy s pid item_id q draw).1.
Proof.
  intros Hcons. unfold shop_buy, buy_script.
  destruct (items s !! item_id) as [it|]; [|done].
  destruct (stock s !! item_id) as [k|]; [|done].
  destruct (k <? q); [done|].
  destruct (hget_gold s pid) as [g|]; [|done].
  destruct (g <? item_price it * q); [done|].
  rewrite (hincrby_gold_pair pid). cbv beta iota.
  match goal with
  | |- consistent (foldl ?f ?s3 ?l, _).1 =>
    destruct (rpush_all pid
                (λ k0, InventoryItem item_id (item_name it) (draw k0).1 (draw k0).2)
                l s3)
      as (H1&H2&H3&_&_&H6&H7&_)
  end.
  eapply consistent_same_ledger;
    [|apply (consistent_move_gold pid (- (item_price it * q)) s Hcons)].
  unfold same_ledger. cbn [fst]. rewrite H1, H2, H3, H6, H7. by repeat split.
Qed.

Lemma consistent_auction_create s pid uid starting_price now_ms :
  consistent s → consistent (auction_create s pid uid starting_price now_ms).1.
Proof.
  intros Hcons. unfold auction_create.
  destruct (find_unique _ _) as [[idx it]|]; [|done].
  eapply consistent_same_ledger; [|exact Hcons].
  destruct (_ ≫= username); by repeat split.
Qed.

Lemma consistent_bid_refunded s a : consistent s → consistent (bid_refunded s a).
Proof.
  intros Hcons. unfold bid_refunded.
  destruct (decide (highest_bidder a = "")); [done|].
  by apply (consistent_move_gold (highest_bidder a) (current_price a)).
Qed.

Lemma consistent_bid_debited s a pid amount :
  consistent s → consistent (bid_debited s a pid amount).
Proof.
  intros Hcons.
  apply (consistent_move_gold pid (- amount) (bid_refunded s a)).
  by apply consistent_bid_refunded.
Qed.

Lemma consistent_auction_bid s aid pid amount :
  consistent s → consistent (auction_bid s aid pid amount).1.
Proof.
  intros Hcons. unfold auction_bid.
  destruct (auctions s !! aid) as [a|]; [|done].
  destruct (amount <=? current_price a); [done|].
  destruct (hget_gold s pid) as [g|]; [|done].
  destruct (g <? amount); [done|].
  assert (Hs1 : (if decide (highest_bidder a = "") then s
                 else let '(s', new_prev_gold) :=
                        hincrby_gold (highest_bidder a) (current_price a) s in
                      zadd_lb_gold (highest_bidder a) new_prev_gold s')
                = bid_refunded s a).
  { unfold bid_refunded. by destruct (decide (highest_bidder a = "")). }
  rewrite Hs1. rewrite (hincrby_gold_pair pid). cbv beta iota.
  fold (bid_debited s a pid amount).
  pose proof (consistent_bid_debited s a pid amount Hcons).
  destruct (_ ≫= username); [|done].
  eapply consistent_same_ledger; [|done]. by repeat split.
Qed.

Lemma consistent_auction_buy s auction_id buyer_id uid stamp :
  consistent s → consistent (auction_buy s auction_id buyer_id uid stamp).1.
Proof.
  intros Hcons. unfold auction_buy.
  destruct (decide (buyer_id = "")); [done|].
  destruct (auctions s !! auction_key_of auction_id) as [a|]; [|done].
  destruct (gold_of s buyer_id <? current_price a); [done|].
  rewrite (hincrby_gold_pair buyer_id). cbv beta iota.
  rewrite (hincrby_gold_pair (seller a)). cbv beta iota.
  eapply consistent_same_ledger;
    [|apply (consistent_move_gold (seller a) (current_price a)),
        (consistent_move_gold buyer_id (- current_price a)), Hcons].
  by repeat split.
Qed.

Lemma consistent_init_game_data s : consistent s → consistent (init_game_data s).
Proof.
  intros Hcons. unfold init_game_data.
  induction catalogue as [|e l IH] using rev_ind; [done|].
  rewrite foldl_app. simpl.
  eapply consistent_same_ledger; [|exact IH].
  repeat case_match; by repeat split.
Qed.

(** ** The server as a transition system *)

Lemma consistent_handle s r : consistent s → clock_fresh s r → consistent (handle s r).
Proof.
  intros Hcons Hfresh. destruct r; simpl.
  - by apply consistent_init_game_data.
  - by apply consistent_login.
  - by apply consistent_click.
  - by apply consistent_shop_buy.
  - by apply consistent_auction_create.
  - by apply consistent_auction_bid.
  - by apply consistent_auction_buy.
  - unfold admin_set_cooldown. destruct (require_admin _ _); [|done].
    eapply consistent_same_ledger; [|done]. by repeat split.
  - unfold admin_set_rate_limit. destruct (require_admin _ _); [|done].
    eapply consistent_same_ledger; [|done]. by repeat split.
Qed.

Lemma reachable_consistent s : reachable s → consistent s.
Proof.
  induction 1 as [|s r _ IH Hfresh]; [apply consistent_empty|].
  by apply consistent_handle.
Qed.


(** ** The leaderboard query *)

Global Instance zset_le_total : Total zset_le.
Proof.
  intros [m1 s1] [m2 s2]. unfold zset_le. simpl.
  destruct (Z.lt_total s1 s2) as [?|[->|?]]; [tauto| |tauto].
  destruct (total String.le m1 m2); tauto.
Qed.

Global Instance zset_le_trans : Transitive zset_le.
Proof.
  intros [m1 s1] [m2 s2] [m3 s3]. unfold zset_le. simpl.
  intros [?|[-> H12]] [?|[-> H23]]; try (left; lia).
  right. split; [done|]. by etrans.
Qed.

Lemma StronglySorted_sublist {A} (R : relation A) l1 l2 :
  l1 `sublist_of` l2 → StronglySorted R l2 → StronglySorted R l1.
Proof.
  induction 1 as [|x l1 l2 Hsub IH|x l1 l2 Hsub IH]; intros Hs.
  - constructor.
  - apply StronglySorted_inv in Hs as [Hs Hall]. constructor; [by apply IH|].
    rewrite Forall_forall in Hall |- *. intros y Hy. apply Hall.
    by eapply elem_of_sublist.
  - apply StronglySorted_inv in Hs as [Hs _]. by apply IH.
Qed.

Lemma redis_range_sublist {A} start stop (l : list A) :
  redis_range start stop l `sublist_of` l.
Proof.
  unfold redis_range. case_match; [apply sublist_nil_l|].
  etrans; [apply sublist_take|apply sublist_drop].
Qed.

Lemma zset_ascending_sorted z : StronglySorted zset_le (zset_ascending z).
Proof. unfold zset_ascending. apply (StronglySorted_merge_sort _). Qed.

Lemma elem_of_zset_ascending z m v : (m, v) ∈ zset_ascending z ↔ z !! m = Some v.
Proof.
  unfold zset_ascending. rewrite merge_sort_Permutation.
  apply elem_of_map_to_list.
Qed.

Lemma zrevrange_sorted z start stop :
  StronglySorted (flip zset_le) (zrevrange z start stop).
Proof.
  unfold zrevrange. eapply StronglySorted_sublist; [apply redis_range_sublist|].
  assert (Transitive (flip zset_le)) by (intros x y w H1 H2; by etrans).
  apply Sorted_StronglySorted; [done|].
  apply Sorted_reverse, StronglySorted_Sorted, zset_ascending_sorted.
Qed.

Lemma elem_of_zrevrange z start stop m v :
  (m, v) ∈ zrevrange z start stop → z !! m = Some v.
Proof.
  intros H. apply elem_of_zset_ascending, elem_of_reverse.
  eapply elem_of_sublist; [done|]. apply redis_range_sublist.
Qed.

Lemma number_rows_Forall s (P : string → Z → Prop) top : ∀ k,
  Forall (λ e, P e.1 e.2) top →
  Forall (λ r, P (lb_player_id r) (lb_score r)) (number_rows s k top).
Proof.
  induction top as [|[m v] top IH]; intros k Hall; simpl; [constructor|].
  apply Forall_cons in Hall as [H1 H2]. constructor; [done|]. by apply IH.
Qed.

Lemma number_rows_sorted s top : ∀ k,
  StronglySorted (flip zset_le) top → StronglySorted row_before (number_rows s k top).
Proof.
  induction top as [|[m v] top IH]; intros k Hs; simpl; [constructor|].
  apply StronglySorted_inv in Hs as [Hs Hall]. constructor; [by apply IH|].
  apply (number_rows_Forall s (λ m' v', v' < v ∨ (v' = v ∧ String.le m' m))).
  eapply Forall_impl; [exact Hall|]. intros [m' v'] H. exact H.
Qed.

Lemma number_rows_ranks s top : ∀ k,
  lb_rank <$> number_rows s k top = (λ i, k + Z.of_nat i) <$> seq 0 (length top).
Proof.
  induction top as [|[m v] top IH]; intros k; simpl; [done|].
  f_equal; [lia|]. rewrite IH, <-fmap_S_seq, <-list_fmap_compose.
  apply list_fmap_ext. intros _ i _. simpl. lia.
Qed.

Lemma number_rows_length s top : ∀ k, length (number_rows s k top) = length top.
Proof. induction top as [|[m v] top IH]; intros k; simpl; [done|]. by rewrite IH. Qed.

Lemma number_rows_elem s top r : ∀ k,
  r ∈ number_rows s k top →
  (lb_player_id r, lb_score r) ∈ top
  ∧ lb_username r = players s !! lb_player_id r ≫= username.
Proof.
  induction top as [|[m v] top IH]; intros k; simpl.
  - intros H. by apply elem_of_nil in H.
  - intros [->|H]%elem_of_cons; simpl; [split; [left|done]|].
    destruct (IH _ H) as [H1 H2]. split; [by right|done].
Qed.

(** C9, as the store has it.  The rows of a leaderboard query come by
    non-increasing score; rows of equal score come by decreasing player id;
    the ranks are 1, 2, 3, ... without gap; every row carries the score that
    the board holds for its player and the name of that player. *)
Theorem leaderboard_rows_ordered s board_type limit :
  let rows := get_leaderboard s board_type limit in
  StronglySorted row_before rows
  ∧ StronglySorted (λ r1 r2, lb_score r2 ≤ lb_score r1) rows
  ∧ lb_rank <$> rows = (λ i, 1 + Z.of_nat i) <$> seq 0 (length rows)
  ∧ (∀ r, r ∈ rows →
       board s board_type !! lb_player_id r = Some (lb_score r)
       ∧ lb_username r = players s !! lb_player_id r ≫= username).
Proof.
  intros rows. subst rows. unfold get_leaderboard.
  set (top := zrevrange (board s board_type) 0 (limit - 1)).
  assert (Hs : StronglySorted row_before (number_rows s 1 top))
    by apply number_rows_sorted, zrevrange_sorted.
  split; [done|]. split.
  - clear -Hs. induction Hs as [|r l _ IH Hall]; constructor; [done|].
    eapply Forall_impl; [exact Hall|]. unfold row_before. intros r' H. lia.
  - split; [by rewrite number_rows_ranks, number_rows_length|].
    intros r Hr. apply number_rows_elem in Hr as [H1 H2].
    split; [|done]. by eapply elem_of_zrevrange.
Qed.

(** * Scenarios *)

Lemma with_ann_reachable : reachable with_ann.
Proof.
  apply (reach_step _ (ReqLogin "ann" 1000)); [|by_computation].
  apply (reach_step _ ReqSeed); [apply reach_empty|exact I].
Qed.

Lemma with_bob_reachable : reachable with_bob.
Proof.
  apply (reach_step _ (ReqLogin "bob" 2000)); [|by_computation].
  apply with_ann_reachable.
Qed.

Lemma bob_leads_reachable : reachable bob_leads.
Proof.
  apply (reach_step _ (ReqAuctionBid _ _ _)); [|exact I].
  apply (reach_step _ (ReqAuctionCreate _ _ _ _)); [|exact I].
  apply (reach_step _ (ReqShopBuy _ _ _ _)); [|exact I].
  apply with_bob_reachable.
Qed.

Example listed_auction :
  auction_list listed
  = [("auction:4000", Auction "1000" "ann" "sword_bronze" "青銅劍" 50 "" "" 4000)].
Proof. by_computation. Qed.

Example bob_leads_auction :
  auction_list bob_leads
  = [("auction:4000",
      Auction "1000" "ann" "sword_bronze" "青銅劍" 60 "2000" "bob" 4000)]
  ∧ gold_of bob_leads "1000" = 900 ∧ gold_of bob_leads "2000" = 940.
Proof. repeat split; by_computation. Qed.

(** The scenario of the auction house: a bid of 40 on a price of 50 is too
    low, and one of 55 after the bid of 60 is too low as well. *)
Example bids_too_low :
  auction_bid listed "auction:4000" "2000" 40 = (listed, BidTooLow)
  ∧ auction_bid bob_leads "auction:4000" "1000" 55 = (bob_leads, BidTooLow).
Proof. repeat split; by_computation. Qed.

(** ** Instances of the theorems *)




Lemma rejections_change_nothing_witness :
  auction_bid listed "auction:4000" "2000" 40 = (listed, BidTooLow)
  ∧ auction_bid listed "auction:4000" "2000" 5000 = (listed, BidInsufficientFunds)
  ∧ shop_buy five_left "1000" "sword_bronze" 6 demo_draw
    = (five_left, BuyRejected OutOfStock)
  ∧ shop_buy with_ann "1000" "sword_bronze" 11 demo_draw
    = (with_ann, BuyRejected InsufficientFunds).
Proof.
  destruct rejections_change_nothing as (_ & H2 & H3 & _ & H5 & H6).
  split; [|split; [|split]].
  - eapply H2; [by_computation|done].
  - eapply (H3 _ _ _ _ _ 1000); [by_computation|done|by_computation|done].
  - eapply (H5 _ _ _ _ _ bronze); [by_computation|].
    intros k Hk. vm_compute in Hk. injection Hk as <-. done.
  - eapply (H6 _ _ _ _ _ bronze 100 1000); by_computation.
Defined.





Lemma cooldown_reject_consumes_slot_witness :
  ∃ s', click ann_clicked "1000" 5200 false = (s', ClickCooldown 300)
    ∧ rate_window s' "1000" = {[5000; 5200]}
    ∧ players s' = players ann_clicked
    ∧ lb_gold s' = lb_gold ann_clicked.
Proof.
  destruct (cooldown_reject_consumes_slot ann_clicked "1000"
              (Player (Some "ann") 1010 (Some 1000)) (Expiring 1 5500) 5200 false)
    as (s' & H1 & _ & _ & H4 & H5 & _ & _ & _ & H9 & _);
    [by_computation|by_computation|by_computation
    |simpl; lia|].
  exists s'. split; [exact H1|]. split; [|exact (conj H5 H9)].
  rewrite H4. by_computation.
Defined.

Lemma accepted_click_reward_witness :
  ok_reward (ClickReply 24 1034 2 true 2 500 1000 3) = (10 + Z.min (1 * 2) 50) * 2
  ∧ 0 < ok_reward (ClickReply 24 1034 2 true 2 500 1000 3)
  ∧ ok_combo (ClickReply 24 1034 2 true 2 500 1000 3) = 1 + 1.
Proof.
  destruct (accepted_click_reward ann_clicked "1000" 6000 true
              (click ann_clicked "1000" 6000 true).1
              (ClickReply 24 1034 2 true 2 500 1000 3))
    as (H1 & _ & H3 & H4 & _).
  - apply cons_combo, reachable_consistent.
    apply (reach_step _ (ReqClick _ _ _)); [apply with_ann_reachable|exact I].
  - by_computation.
  - exact (conj H1 (conj H3 H4)).
Defined.


(** Two players who have just logged in hold 1000 gold each: their rows
    carry the same score, and the later player comes first. *)
Lemma leaderboard_tie_counterexample :
  get_leaderboard with_bob "gold" 10
  = [ LeaderboardEntry 1 "2000" (Some "bob") 1000;
      LeaderboardEntry 2 "1000" (Some "ann") 1000 ]
  ∧ ¬ Sorted (λ r1 r2, lb_score r2 < lb_score r1) (get_leaderboard with_bob "gold" 10).
Proof.
  assert (H : get_leaderboard with_bob "gold" 10
              = [ LeaderboardEntry 1 "2000" (Some "bob") 1000;
                  LeaderboardEntry 2 "1000" (Some "ann") 1000 ])
    by by_computation.
  split; [exact H|]. rewrite H. intros Hs.
  apply Sorted_inv in Hs as [_ Hhd]. apply HdRel_inv in Hhd. simpl in Hhd. lia.
Qed.

(** * Further properties of the handlers *)

(** ** Clicks *)

(** An accepted click, field by field. *)
Lemma click_accepted_facts s pid now_ms b s' r :
  click s pid now_ms b = (s', ClickAccepted r) →
  let k := current_combo s pid now_ms in
  r = ClickReply (click_reward k b) (gold_of s pid + click_reward k b) (k + 1) b
        (default 0 (clicks s !! pid) + 1)
        (cooldown_setting s) (window_setting s) (max_hits_setting s)
  ∧ (∀ q, q ≠ pid → players s' !! q = players s !! q)
  ∧ clicks s' = <[pid := default 0 (clicks s !! pid) + 1]> (clicks s)
  ∧ lb_gold s' = <[pid := gold_of s pid + click_reward k b]> (lb_gold s)
  ∧ lb_clicks s' = <[pid := default 0 (clicks s !! pid) + 1]> (lb_clicks s)
  ∧ combo s' = <[pid := Expiring (k + 1) (now_ms + 10 * 1000)]> (combo s)
  ∧ cooldown s' = (if 0 <? cooldown_setting s
                   then <[pid := Expiring 1 (now_ms + cooldown_setting s)]> (cooldown s)
                   else cooldown s)
  ∧ rate s' = rate (window_passed s pid now_ms)
  ∧ inventory s' = inventory s ∧ items s' = items s ∧ stock s' = stock s
  ∧ auctions s' = auctions s ∧ active s' = active s
  ∧ cfg_cooldown_ms s' = cfg_cooldown_ms s ∧ cfg_window_ms s' = cfg_window_ms s
  ∧ cfg_max_hits s' = cfg_max_hits s.
Proof.
  intros H k. apply click_accepted_inv in H as (_ & _ & _ & H).
  destruct (click_pay_spec (window_passed s pid now_ms) pid now_ms b
              (cooldown_setting s) (window_setting s) (max_hits_setting s))
    as (s0 & Heq & _ & H2 & _ & _ & H5 & H6 & H7 & H8 & H9 & H10 & H11 & H12
        & H13 & H14 & H15 & H16 & H17 & H18).
  rewrite Heq in H. injection H as <- <-.
  split; [reflexivity|]. split; [exact H2|]. split; [exact H5|].
  split; [exact H6|]. split; [exact H7|]. split; [exact H8|].
  split; [exact H9|]. split; [exact H10|].
  split; [exact H11|]. split; [exact H12|]. split; [exact H13|].
  split; [exact H14|]. split; [exact H15|]. split; [exact H16|].
  split; [exact H17|exact H18].
Qed.

(** X1.  A click that is not accepted (unknown player, window full, cooldown
    running) moves no balance, counter, combo, cooldown marker, leaderboard
    entry, inventory, stock or auction; it can only touch the window record
    of its own player.  For an unknown player the store is returned as it
    was, and a click stopped by the window adds nothing to the record. *)
Theorem click_not_accepted_frame s pid now_ms b s' r :
  click s pid now_ms b = (s', r) →
  ¬ is_accepted r →
  players s' = players s ∧ clicks s' = clicks s ∧ combo s' = combo s
  ∧ cooldown s' = cooldown s ∧ lb_gold s' = lb_gold s ∧ lb_clicks s' = lb_clicks s
  ∧ inventory s' = inventory s ∧ stock s' = stock s ∧ auctions s' = auctions s
  ∧ active s' = active s
  ∧ (∀ q, q ≠ pid → rate s' !! q = rate s !! q)
  ∧ (r = ClickNotFound → s' = s)
  ∧ (∀ retry w m, r = ClickThrottled retry w m →
     rate_window s' pid ⊆ rate_window s pid).
Proof.
  intros H Hna. destruct (players s !! pid) as [p|] eqn:Hp.
  2:{ unfold click in H. rewrite Hp in H. injection H as <- <-.
      repeat split; done. }
  assert (Hput : ∀ w q, q ≠ pid → rate (put_rate_window pid w s) !! q = rate s !! q).
  { intros w q Hq. unfold put_rate_window. simpl.
    destruct (decide (w = ∅)).
    - by rewrite lookup_delete_ne.
    - by rewrite lookup_insert_ne. }
  destruct (Z_lt_le_dec (Z.of_nat (size (pruned_window s pid now_ms)))
              (max_hits_setting s)) as [Hlt|Hge].
  - rewrite (click_windowed _ _ _ _ _ Hp Hlt) in H. cbv zeta in H.
    rewrite put_rate_window_twice in H.
    destruct (get_alive now_ms (cooldown s !! pid)).
    + injection H as <- <-. repeat split; try done. apply Hput.
    + exfalso. apply Hna.
      destruct (click_pay_spec
                  (put_rate_window pid ({[now_ms]} ∪ pruned_window s pid now_ms) s)
                  pid now_ms b (cooldown_setting s) (window_setting s)
                  (max_hits_setting s)) as (s0 & Heq & _).
      rewrite Heq in H. by injection H as _ <-.
  - rewrite (click_throttled _ _ _ _ _ Hp Hge) in H. injection H as <- <-.
    repeat split; try done; [apply Hput|].
    intros _ _ _ _. rewrite rate_window_put. intros t Ht.
    by apply elem_of_zremrangebyscore in Ht as [Ht _].
Qed.

(** X2.  Whenever a click gets past the window gate (it is then accepted, or
    stopped by the cooldown), the window record of the player holds the
    instant of the click and at most [max_hits] instants in all, none of
    which is in the range that the pruning removes. *)
Theorem click_window_bounded s pid now_ms b s' r :
  click s pid now_ms b = (s', r) →
  (∃ left, r = ClickCooldown left) ∨ is_accepted r →
  now_ms ∈ rate_window s' pid
  ∧ Z.of_nat (size (rate_window s' pid)) ≤ max_hits_setting s
  ∧ (∀ t, t ∈ rate_window s' pid →
     t = now_ms ∨ (t ∈ rate_window s pid ∧ ¬ (0 ≤ t ≤ now_ms - window_setting s))).
Proof.
  intros H Hr. destruct (players s !! pid) as [p|] eqn:Hp.
  2:{ unfold click in H. rewrite Hp in H. injection H as <- <-.
      by destruct Hr as [[? ?]|?]. }
  destruct (Z_lt_le_dec (Z.of_nat (size (pruned_window s pid now_ms)))
              (max_hits_setting s)) as [Hlt|Hge].
  2:{ rewrite (click_throttled _ _ _ _ _ Hp Hge) in H. injection H as <- <-.
      by destruct Hr as [[? ?]|?]. }
  assert (Hw : rate_window s' pid = {[now_ms]} ∪ pruned_window s pid now_ms).
  { rewrite (click_windowed _ _ _ _ _ Hp Hlt) in H. cbv zeta in H.
    rewrite put_rate_window_twice in H.
    destruct (get_alive now_ms (cooldown s !! pid)).
    - injection H as <- <-. apply rate_window_put.
    - destruct (click_pay_spec
                  (put_rate_window pid ({[now_ms]} ∪ pruned_window s pid now_ms) s)
                  pid now_ms b (cooldown_setting s) (window_setting s)
                  (max_hits_setting s))
        as (s0 & Heq & _ & _ & _ & _ & _ & _ & _ & _ & _ & Hrate & _).
      rewrite Heq in H. injection H as <- <-.
      unfold rate_window at 1. rewrite Hrate. apply (rate_window_put pid _ s). }
  rewrite Hw. split; [apply elem_of_union; left; by apply elem_of_singleton|]. split.
  - pose proof (size_union_alt {[now_ms]} (pruned_window s pid now_ms)) as Hu.
    rewrite size_singleton in Hu.
    assert (size (pruned_window s pid now_ms ∖ {[now_ms]})
            ≤ size (pruned_window s pid now_ms))%nat
      by (apply subseteq_size; intros x Hx; by apply elem_of_difference in Hx as [? _]).
    lia.
  - intros t [Ht|Ht]%elem_of_union; [left; by apply elem_of_singleton in Ht|right].
    by apply elem_of_zremrangebyscore in Ht.
Qed.

(** X3.  An accepted click is the business of its player alone: the hash,
    the counter, the leaderboard entries, the combo and the cooldown marker
    of every other player are what they were, and so are all inventories,
    the shop and the auctions.  The counter of the player goes up by one. *)
Theorem accepted_click_touches_own s pid now_ms b s' r :
  click s pid now_ms b = (s', ClickAccepted r) →
  (∀ q, q ≠ pid →
     players s' !! q = players s !! q ∧ clicks s' !! q = clicks s !! q
     ∧ lb_gold s' !! q = lb_gold s !! q ∧ lb_clicks s' !! q = lb_clicks s !! q
     ∧ combo s' !! q = combo s !! q ∧ cooldown s' !! q = cooldown s !! q
     ∧ rate s' !! q = rate s !! q)
  ∧ inventory s' = inventory s ∧ items s' = items s ∧ stock s' = stock s
  ∧ auctions s' = auctions s ∧ active s' = active s
  ∧ ok_total_clicks r = default 0 (clicks s !! pid) + 1
  ∧ clicks s' !! pid = Some (ok_total_clicks r).
Proof.
  intros H.
  destruct (click_accepted_facts s pid now_ms b s' r H)
    as (-> & H2 & H3 & H4 & H5 & H6 & H7 & H8 & H9 & H10 & H11 & H12 & H13 & _).
  rewrite H3, H4, H5, H6, H7, H8. split.
  - intros q Hq. rewrite !lookup_insert_ne by done.
    split; [by apply H2|]. repeat split.
    + destruct (0 <? cooldown_setting s); [by rewrite lookup_insert_ne|done].
    + unfold window_passed, put_rate_window. simpl.
      destruct (decide (_ = ∅)).
      * by rewrite lookup_delete_ne.
      * by rewrite lookup_insert_ne.
  - repeat split; try done. simpl. by rewrite lookup_insert_eq.
Qed.


(** ** What each handler leaves alone *)

Lemma player_login_frame s name now_ms :
  let s' := (player_login s name now_ms).1 in
  inventory s' = inventory s ∧ clicks s' = clicks s ∧ combo s' = combo s
  ∧ cooldown s' = cooldown s ∧ rate s' = rate s ∧ items s' = items s
  ∧ stock s' = stock s ∧ auctions s' = auctions s ∧ active s' = active s
  ∧ cfg_cooldown_ms s' = cfg_cooldown_ms s ∧ cfg_window_ms s' = cfg_window_ms s
  ∧ cfg_max_hits s' = cfg_max_hits s.
Proof. unfold player_login. frame_tac. Qed.

Lemma click_frame s pid now_ms b :
  let s' := (click s pid now_ms b).1 in
  inventory s' = inventory s ∧ items s' = items s ∧ stock s' = stock s
  ∧ auctions s' = auctions s ∧ active s' = active s
  ∧ cfg_cooldown_ms s' = cfg_cooldown_ms s ∧ cfg_window_ms s' = cfg_window_ms s
  ∧ cfg_max_hits s' = cfg_max_hits s.
Proof.
  cbv zeta. destruct (players s !! pid) as [p|] eqn:Hp.
  2:{ unfold click. rewrite Hp. by repeat split. }
  destruct (Z_lt_le_dec (Z.of_nat (size (pruned_window s pid now_ms)))
              (max_hits_setting s)) as [Hlt|Hge].
  2:{ rewrite (click_throttled _ _ _ _ _ Hp Hge). by repeat split. }
  rewrite (click_windowed _ _ _ _ _ Hp Hlt). cbv zeta.
  destruct (get_alive now_ms (cooldown s !! pid)); [by repeat split|].
  match goal with
  | |- context [click_pay ?s2 _ _ _ _ _ _] =>
    destruct (click_pay_spec s2 pid now_ms b (cooldown_setting s)
                (window_setting s) (max_hits_setting s))
      as (s0 & Heq & _ & _ & _ & _ & _ & _ & _ & _ & _ & _ & H12 & H13 & H14 & H15
          & H16 & H17 & H18 & H19)
  end.
  rewrite Heq. cbn [fst]. rewrite H12, H13, H14, H15, H16, H17, H18, H19.
  by repeat split.
Qed.

Lemma rpush_all_settings pid (f : nat → inventory_item) (l : list nat) : ∀ s,
  let s' := foldl (λ s' k, rpush_inventory pid (f k) s') s l in
  cfg_cooldown_ms s' = cfg_cooldown_ms s ∧ cfg_window_ms s' = cfg_window_ms s
  ∧ cfg_max_hits s' = cfg_max_hits s.
Proof.
  induction l as [|k l IH]; intros s; simpl; [done|].
  destruct (IH (rpush_inventory pid (f k) s)) as (H1 & H2 & H3).
  by rewrite H1, H2, H3.
Qed.

Lemma shop_buy_frame s pid item_id q draw :
  let s' := (shop_buy s pid item_id q draw).1 in
  clicks s' = clicks s ∧ combo s' = combo s ∧ cooldown s' = cooldown s
  ∧ rate s' = rate s ∧ lb_clicks s' = lb_clicks s ∧ items s' = items s
  ∧ auctions s' = auctions s ∧ active s' = active s
  ∧ cfg_cooldown_ms s' = cfg_cooldown_ms s ∧ cfg_window_ms s' = cfg_window_ms s
  ∧ cfg_max_hits s' = cfg_max_hits s
  ∧ (∀ i, i ≠ item_id → stock s' !! i = stock s !! i)
  ∧ (∀ r, r ≠ pid → players s' !! r = players s !! r ∧ inventory s' !! r = inventory s !! r
                    ∧ lb_gold s' !! r = lb_gold s !! r)
  ∧ (∀ r, players s' !! r ≫= username = players s !! r ≫= username).
Proof.
  unfold shop_buy, buy_script.
  destruct (items s !! item_id) as [it|]; [|by repeat split].
  destruct (stock s !! item_id) as [k|]; [|by repeat split].
  destruct (k <? q); [by repeat split|].
  destruct (hget_gold s pid) as [g|]; [|by repeat split].
  destruct (g <? item_price it * q); [by repeat split|].
  rewrite (hincrby_gold_pair pid). cbv beta iota.
  match goal with
  | |- context [foldl ?f ?s3 ?l] =>
    destruct (rpush_all pid
                (λ k0, InventoryItem item_id (item_name it) (draw k0).1 (draw k0).2)
                l s3)
      as (H1&H2&H3&H4&H5&H6&H7&H8&H9&H10&H11&_&H13&_);
    destruct (rpush_all_settings pid
                (λ k0, InventoryItem item_id (item_name it) (draw k0).1 (draw k0).2)
                l s3)
      as (H14&H15&H16)
  end.
  cbn [fst]. cbv zeta.
  rewrite H1, H2, H3, H4, H5, H6, H7, H8, H9, H10, H11, H14, H15, H16.
  split; [done|]. split; [done|]. split; [done|]. split; [done|].
  split; [done|]. split; [done|]. split; [done|]. split; [done|].
  split; [done|]. split; [done|]. split; [done|].
  split; [|split].
  - intros i Hi. simpl. by rewrite lookup_insert_ne.
  - intros r Hr. rewrite H13 by done. simpl. by rewrite !lookup_insert_ne.
  - intros r. change (players (zadd_lb_gold ?p ?v (set_stock ?m ?t))) with (players t).
    apply username_hincrby.
Qed.

Lemma auction_create_frame s pid uid price now_ms :
  let s' := (auction_create s pid uid price now_ms).1 in
  players s' = players s ∧ clicks s' = clicks s ∧ combo s' = combo s
  ∧ cooldown s' = cooldown s ∧ rate s' = rate s ∧ lb_gold s' = lb_gold s
  ∧ lb_clicks s' = lb_clicks s ∧ items s' = items s ∧ stock s' = stock s
  ∧ cfg_cooldown_ms s' = cfg_cooldown_ms s ∧ cfg_window_ms s' = cfg_window_ms s
  ∧ cfg_max_hits s' = cfg_max_hits s.
Proof. unfold auction_create. frame_tac. Qed.

Lemma auction_bid_frame s aid pid amount :
  let s' := (auction_bid s aid pid amount).1 in
  inventory s' = inventory s ∧ clicks s' = clicks s ∧ combo s' = combo s
  ∧ cooldown s' = cooldown s ∧ rate s' = rate s ∧ lb_clicks s' = lb_clicks s
  ∧ items s' = items s ∧ stock s' = stock s ∧ active s' = active s
  ∧ cfg_cooldown_ms s' = cfg_cooldown_ms s ∧ cfg_window_ms s' = cfg_window_ms s
  ∧ cfg_max_hits s' = cfg_max_hits s.
Proof. unfold auction_bid. frame_tac. Qed.

Lemma auction_buy_frame s auction_id buyer_id uid stamp :
  let s' := (auction_buy s auction_id buyer_id uid stamp).1 in
  clicks s' = clicks s ∧ combo s' = combo s ∧ cooldown s' = cooldown s
  ∧ rate s' = rate s ∧ lb_clicks s' = lb_clicks s ∧ items s' = items s
  ∧ stock s' = stock s
  ∧ cfg_cooldown_ms s' = cfg_cooldown_ms s ∧ cfg_window_ms s' = cfg_window_ms s
  ∧ cfg_max_hits s' = cfg_max_hits s.
Proof. unfold auction_buy. frame_tac. Qed.

Lemma init_game_data_frame s :
  let s' := init_game_data s in
  players s' = players s ∧ inventory s' = inventory s ∧ clicks s' = clicks s
  ∧ combo s' = combo s ∧ cooldown s' = cooldown s ∧ rate s' = rate s
  ∧ lb_gold s' = lb_gold s ∧ lb_clicks s' = lb_clicks s
  ∧ auctions s' = auctions s ∧ active s' = active s
  ∧ cfg_cooldown_ms s' = cfg_cooldown_ms s ∧ cfg_window_ms s' = cfg_window_ms s
  ∧ cfg_max_hits s' = cfg_max_hits s.
Proof.
  unfold init_game_data. cbv zeta.
  induction catalogue as [|e l IH] using rev_ind; [by repeat split|].
  rewrite foldl_app. simpl.
  destruct IH as (H1&H2&H3&H4&H5&H6&H7&H8&H9&H10&H11&H12&H13).
  rewrite <-H1, <-H2, <-H3, <-H4, <-H5, <-H6, <-H7, <-H8, <-H9, <-H10, <-H11,
    <-H12, <-H13.
  repeat case_match; by repeat split.
Qed.

(** ** Settings *)

Lemma settings_ok_same s s' :
  cfg_cooldown_ms s' = cfg_cooldown_ms s → cfg_window_ms s' = cfg_window_ms s →
  cfg_max_hits s' = cfg_max_hits s → settings_ok s → settings_ok s'.
Proof.
  unfold settings_ok, cooldown_setting, window_setting, max_hits_setting.
  by intros -> -> ->.
Qed.

Lemma settings_ok_handle s r : settings_ok s → settings_ok (handle s r).
Proof.
  intros Hok. destruct r; simpl.
  - destruct (init_game_data_frame s) as (_&_&_&_&_&_&_&_&_&_&H1&H2&H3).
    by apply (settings_ok_same s).
  - destruct (player_login_frame s name now_ms) as (_&_&_&_&_&_&_&_&_&H1&H2&H3).
    by apply (settings_ok_same s).
  - destruct (click_frame s player_id now_ms is_critical) as (_&_&_&_&_&H1&H2&H3).
    by apply (settings_ok_same s).
  - destruct (shop_buy_frame s player_id item_id quantity draw)
      as (_&_&_&_&_&_&_&_&H1&H2&H3&_).
    by apply (settings_ok_same s).
  - destruct (auction_create_frame s pid uid starting_price now_ms)
      as (_&_&_&_&_&_&_&_&_&H1&H2&H3).
    by apply (settings_ok_same s).
  - destruct (auction_bid_frame s aid pid bid_amount) as (_&_&_&_&_&_&_&_&_&H1&H2&H3).
    by apply (settings_ok_same s).
  - destruct (auction_buy_frame s auction_id buyer_id uid stamp)
      as (_&_&_&_&_&_&_&H1&H2&H3).
    by apply (settings_ok_same s).
  - unfold admin_set_cooldown. destruct (require_admin _ _); [|done].
    destruct Hok as (_ & H2 & H3). split; [|done].
    unfold cooldown_setting. simpl. destruct (Z.ltb_spec cooldown_ms 0); lia.
  - unfold admin_set_rate_limit. destruct (require_admin _ _); [|done].
    destruct Hok as (H1 & _ & _). split; [done|].
    unfold window_setting, max_hits_setting. simpl.
    destruct (Z.leb_spec window_ms 0), (Z.leb_spec max_hits 0); lia.
Qed.

(** X5.  Whatever the requests served so far, the settings that [click]
    reads are a cooldown of 0 or more, a window of more than 0 ms and a limit
    of at least one click: the two admin handlers are the only writers, and
    they replace the values outside these ranges. *)
Theorem settings_stay_in_range s :
  reachable s →
  0 ≤ cooldown_setting s ∧ 0 < window_setting s ∧ 1 ≤ max_hits_setting s.
Proof.
  induction 1 as [|s r _ IH _].
  - unfold cooldown_setting, window_setting, max_hits_setting. simpl. lia.
  - by apply settings_ok_handle.
Qed.

(** X6.  The settings handlers and the password.  With another password
    than the admin's, neither handler changes the store and the settings
    cannot be read.  With the admin's, what [admin_get_config] reads back
    after a write is the value written, replaced by 0 for a negative
    cooldown, by 1000 for a window of 0 or less, by 1 for a limit of 0 or
    less; and the other settings are as before. *)
Theorem settings_round_trip s admin_password pwd :
  (pwd ≠ admin_password →
     (∀ c, admin_set_cooldown s admin_password pwd c = (s, None))
     ∧ (∀ w m, admin_set_rate_limit s admin_password pwd w m = (s, None))
     ∧ admin_get_config s admin_password pwd = None)
  ∧ (pwd = admin_password →
     (∀ c, admin_get_config (admin_set_cooldown s admin_password pwd c).1
             admin_password pwd
           = Some (Z.max c 0, window_setting s, max_hits_setting s))
     ∧ (∀ w m, admin_get_config (admin_set_rate_limit s admin_password pwd w m).1
                 admin_password pwd
               = Some (cooldown_setting s,
                       (if w <=? 0 then 1000 else w), (if m <=? 0 then 1 else m)))).
Proof.
  unfold admin_set_cooldown, admin_set_rate_limit, admin_get_config, require_admin.
  split.
  - intros Hne. by rewrite decide_True.
  - intros ->. rewrite decide_False by (by intros ?). split.
    + intros c. simpl. unfold window_setting, max_hits_setting.
      destruct (Z.ltb_spec c 0); do 3 f_equal; lia.
    + intros w m. simpl. done.
Qed.

(** ** Stock *)

Lemma init_game_data_unfold s : init_game_data s = foldl seed_one s catalogue.
Proof. done. Qed.

Lemma seed_one_lookup s e :
  (∀ id, stock (seed_one s e) !! id
         = match stock s !! id with
           | Some k => Some k
           | None => if decide (id = e.1) then Some 100 else None
           end)
  ∧ (∀ id, items (seed_one s e) !! id
           = match items s !! id with
             | Some it => Some it
             | None => if decide (id = e.1) then Some e.2 else None
             end).
Proof.
  unfold seed_one. split; intros id.
  - destruct (items s !! e.1); simpl; destruct (stock s !! e.1) eqn:E; simpl;
      destruct (decide (id = e.1)) as [->|Hne];
      rewrite ?E, ?lookup_insert_eq, ?lookup_insert_ne by done;
      try done; by destruct (stock s !! id).
  - destruct (items s !! e.1) eqn:E; simpl; destruct (stock s !! e.1); simpl;
      destruct (decide (id = e.1)) as [->|Hne];
      rewrite ?E, ?lookup_insert_eq, ?lookup_insert_ne by done;
      try done; by destruct (items s !! id).
Qed.

Lemma seeding_lookup (l : list (string * item)) : ∀ s,
  (∀ id, stock (foldl seed_one s l) !! id
         = match stock s !! id with
           | Some k => Some k
           | None => if decide (id ∈ l.*1) then Some 100 else None
           end)
  ∧ (∀ id, items (foldl seed_one s l) !! id
           = match items s !! id with
             | Some it => Some it
             | None => (list_to_map l : gmap string item) !! id
             end).
Proof.
  induction l as [|[k it] l IH]; intros s.
  - simpl. split; intros id; [by destruct (stock s !! id)|].
    rewrite lookup_empty. by destruct (items s !! id).
  - cbn [foldl]. destruct (IH (seed_one s (k, it))) as [IH1 IH2].
    destruct (seed_one_lookup s (k, it)) as [S1 S2]. simpl in S1, S2.
    split; intros id.
    + rewrite IH1, S1. destruct (stock s !! id); [done|].
      cbn [fmap list_fmap fst].
      destruct (decide (id = k)) as [->|Hne].
      * by rewrite decide_True by left.
      * destruct (decide (id ∈ l.*1)) as [Hin|Hin].
        -- by rewrite decide_True by (by right).
        -- rewrite decide_False; [done|].
           intros [?|?]%elem_of_cons; done.
    + rewrite IH2, S2. destruct (items s !! id); [done|].
      cbn [list_to_map foldr]. simpl.
      destruct (decide (id = k)) as [->|Hne].
      * by rewrite lookup_insert_eq.
      * by rewrite lookup_insert_ne.
Qed.

Lemma store_eq s1 s2 :
  players s1 = players s2 → inventory s1 = inventory s2 → clicks s1 = clicks s2 →
  combo s1 = combo s2 → cooldown s1 = cooldown s2 → rate s1 = rate s2 →
  lb_gold s1 = lb_gold s2 → lb_clicks s1 = lb_clicks s2 → items s1 = items s2 →
  stock s1 = stock s2 → auctions s1 = auctions s2 → active s1 = active s2 →
  cfg_cooldown_ms s1 = cfg_cooldown_ms s2 → cfg_window_ms s1 = cfg_window_ms s2 →
  cfg_max_hits s1 = cfg_max_hits s2 → s1 = s2.
Proof. destruct s1, s2. simpl. by intros -> -> -> -> -> -> -> -> -> -> -> -> -> -> ->. Qed.

(** X8.  Seeding the catalogue is a completion, not a reset: an item hash or
    a stock counter that exists is kept as it is (a restart does not refill
    the shop), every item of the catalogue that was absent gets its hash and
    every absent counter gets 100; nothing else changes, and seeding twice
    is seeding once. *)
Theorem seeding_completes s :
  (∀ id it, items s !! id = Some it → items (init_game_data s) !! id = Some it)
  ∧ (∀ id k, stock s !! id = Some k → stock (init_game_data s) !! id = Some k)
  ∧ (∀ id it, (id, it) ∈ catalogue → items s !! id = None →
       items (init_game_data s) !! id = Some it)
  ∧ (∀ id it, (id, it) ∈ catalogue → stock s !! id = None →
       stock (init_game_data s) !! id = Some 100)
  ∧ (∀ id, id ∉ catalogue.*1 →
       items (init_game_data s) !! id = items s !! id
       ∧ stock (init_game_data s) !! id = stock s !! id)
  ∧ init_game_data (init_game_data s) = init_game_data s.
Proof.
  assert (Hchar : ∀ s0,
    (∀ id, stock (init_game_data s0) !! id
           = match stock s0 !! id with
             | Some k => Some k
             | None => if decide (id ∈ catalogue.*1) then Some 100 else None
             end)
    ∧ (∀ id, items (init_game_data s0) !! id
             = match items s0 !! id with
               | Some it => Some it
               | None => (list_to_map catalogue : gmap string item) !! id
               end)).
  { intros s0. rewrite init_game_data_unfold. apply seeding_lookup. }
  destruct (Hchar s) as [Hst Hit].
  assert (Hnd : NoDup catalogue.*1).
  { apply (bool_decide_unpack (NoDup catalogue.*1)). vm_compute. exact I. }
  split; [intros id it H; by rewrite Hit, H|].
  split; [intros id k H; by rewrite Hst, H|].
  split.
  { intros id it Hin H. rewrite Hit, H. by apply elem_of_list_to_map_1. }
  split.
  { intros id it Hin H. rewrite Hst, H. rewrite decide_True; [done|].
    apply list_elem_of_fmap. by exists (id, it). }
  split.
  { intros id Hid. rewrite Hit, Hst. rewrite decide_False by done.
    assert ((list_to_map catalogue : gmap string item) !! id = None) as ->.
    { by apply not_elem_of_list_to_map_1. }
    split; [by destruct (items s !! id)|by destruct (stock s !! id)]. }
  destruct (init_game_data_frame s) as (H1&H2&H3&H4&H5&H6&H7&H8&H9&H10&H11&H12&H13).
  destruct (init_game_data_frame (init_game_data s))
    as (G1&G2&G3&G4&G5&G6&G7&G8&G9&G10&G11&G12&G13).
  destruct (Hchar (init_game_data s)) as [Hst2 Hit2].
  apply store_eq; try done.
  - apply map_eq. intros id. rewrite Hit2.
    destruct (items (init_game_data s) !! id) eqn:E; [done|].
    rewrite Hit in E. by destruct (items s !! id).
  - apply map_eq. intros id. rewrite Hst2.
    destruct (stock (init_game_data s) !! id) eqn:E; [done|].
    rewrite Hst in E. destruct (stock s !! id); [done|].
    by destruct (decide (id ∈ catalogue.*1)).
Qed.

Lemma stock_nonneg_handle s r : stock_nonneg s → stock_nonneg (handle s r).
Proof.
  intros Hok. destruct r; simpl.
  - intros id k. rewrite init_game_data_unfold.
    destruct (seeding_lookup catalogue s) as [Hst _]. rewrite Hst.
    destruct (stock s !! id) as [k'|] eqn:E.
    + intros [= <-]. by apply (Hok id).
    + destruct (decide _); [|done]. intros [= <-]. lia.
  - destruct (player_login_frame s name now_ms) as (_&_&_&_&_&_&H&_).
    unfold stock_nonneg. by rewrite H.
  - destruct (click_frame s player_id now_ms is_critical) as (_&_&H&_).
    unfold stock_nonneg. by rewrite H.
  - intros id k. destruct (decide (id = item_id)) as [->|Hne].
    2:{ destruct (shop_buy_frame s player_id item_id quantity draw)
          as (_&_&_&_&_&_&_&_&_&_&_&H&_).
        rewrite H by done. apply Hok. }
    unfold shop_buy, buy_script.
    destruct (items s !! item_id) as [it|]; [|apply Hok].
    destruct (stock s !! item_id) as [k0|] eqn:E; [|cbn [fst]; apply Hok].
    destruct (Z.ltb_spec k0 quantity); [cbn [fst]; apply Hok|].
    destruct (hget_gold s player_id) as [g|]; [|cbn [fst]; apply Hok].
    destruct (g <? item_price it * quantity); [cbn [fst]; apply Hok|].
    rewrite (hincrby_gold_pair player_id). cbv beta iota.
    match goal with
    | |- context [foldl ?f ?s3 ?l] =>
      destruct (rpush_all player_id
                  (λ k0, InventoryItem item_id (item_name it) (draw k0).1 (draw k0).2)
                  l s3)
        as (_&_&_&_&_&_&_&_&H9&_)
    end.
    cbn [fst]. rewrite H9. simpl. rewrite lookup_insert_eq. intros [= <-]. lia.
  - destruct (auction_create_frame s pid uid starting_price now_ms)
      as (_&_&_&_&_&_&_&_&H&_).
    unfold stock_nonneg. by rewrite H.
  - destruct (auction_bid_frame s aid pid bid_amount) as (_&_&_&_&_&_&_&H&_).
    unfold stock_nonneg. by rewrite H.
  - destruct (auction_buy_frame s auction_id buyer_id uid stamp) as (_&_&_&_&_&_&H&_).
    unfold stock_nonneg. by rewrite H.
  - unfold admin_set_cooldown. by destruct (require_admin _ _).
  - unfold admin_set_rate_limit. by destruct (require_admin _ _).
Qed.

(** X7.  No stock counter is ever negative: the script of [shop_buy] only
    takes a quantity that the counter covers, and the seeding only writes
    100. *)
Theorem stock_never_negative s :
  reachable s → ∀ item_id k, stock s !! item_id = Some k → 0 ≤ k.
Proof.
  induction 1 as [|s r _ IH _].
  - intros id k H. simpl in H. by rewrite lookup_empty in H.
  - by apply stock_nonneg_handle.
Qed.

(** ** Names *)

Lemma names_unique_same s s' :
  (∀ q, players s' !! q ≫= username = players s !! q ≫= username) →
  names_unique s → names_unique s'.
Proof.
  intros Hsame Hu pid1 pid2 p1 p2 name H1 H2 U1 U2.
  pose proof (Hsame pid1) as E1. pose proof (Hsame pid2) as E2.
  rewrite H1 in E1. rewrite H2 in E2. simpl in E1, E2.
  destruct (players s !! pid1) as [q1|] eqn:Q1; [|by rewrite U1 in E1].
  destruct (players s !! pid2) as [q2|] eqn:Q2; [|by rewrite U2 in E2].
  simpl in E1, E2. eapply (Hu pid1 pid2 q1 q2 name); congruence.
Qed.

Lemma click_not_accepted_players s pid now_ms b s' r :
  click s pid now_ms b = (s', r) → ¬ is_accepted r → players s' = players s.
Proof.
  intros H Hna. destruct (players s !! pid) as [p|] eqn:Hp.
  2:{ unfold click in H. rewrite Hp in H. by injection H as <- _. }
  destruct (Z_lt_le_dec (Z.of_nat (size (pruned_window s pid now_ms)))
              (max_hits_setting s)) as [Hlt|Hge].
  - rewrite (click_windowed _ _ _ _ _ Hp Hlt) in H. cbv zeta in H.
    rewrite put_rate_window_twice in H.
    destruct (get_alive now_ms (cooldown s !! pid)); [by injection H as <- _|].
    exfalso. apply Hna.
    destruct (click_pay_spec
                (put_rate_window pid ({[now_ms]} ∪ pruned_window s pid now_ms) s)
                pid now_ms b (cooldown_setting s) (window_setting s)
                (max_hits_setting s)) as (s0 & Heq & _).
    rewrite Heq in H. by injection H as _ <-.
  - rewrite (click_throttled _ _ _ _ _ Hp Hge) in H. by injection H as <- _.
Qed.

Lemma usernames_click s pid now_ms b q :
  players (click s pid now_ms b).1 !! q ≫= username = players s !! q ≫= username.
Proof.
  destruct (click s pid now_ms b) as [s' r] eqn:H. cbn [fst].
  destruct r as [| | |r].
  4:{ apply click_accepted_inv in H as (_ & _ & _ & H).
      destruct (click_pay_spec (window_passed s pid now_ms) pid now_ms b
                  (cooldown_setting s) (window_setting s) (max_hits_setting s))
        as (s0 & Heq & _ & H2 & H3 & _).
      rewrite Heq in H. injection H as <- _.
      destruct (decide (q = pid)) as [->|Hne]; [exact H3|].
      by rewrite H2. }
  all: rewrite (click_not_accepted_players s pid now_ms b s' _ H); [done|by intros ?].
Qed.

Lemma usernames_auction_bid s aid pid amount q :
  players (auction_bid s aid pid amount).1 !! q ≫= username
  = players s !! q ≫= username.
Proof.
  unfold auction_bid.
  destruct (auctions s !! aid) as [a|]; [|done].
  destruct (amount <=? current_price a); [done|].
  destruct (hget_gold s pid) as [g|]; [|done].
  destruct (g <? amount); [done|].
  assert (Hs1 : (if decide (highest_bidder a = "") then s
                 else let '(s', new_prev_gold) :=
                        hincrby_gold (highest_bidder a) (current_price a) s in
                      zadd_lb_gold (highest_bidder a) new_prev_gold s')
                = bid_refunded s a).
  { unfold bid_refunded. by destruct (decide (highest_bidder a = "")). }
  rewrite Hs1. rewrite (hincrby_gold_pair pid). cbv beta iota.
  fold (bid_debited s a pid amount).
  destruct (players (bid_debited s a pid amount) !! pid ≫= username);
    exact (username_bid_debited s a pid amount q).
Qed.

Lemma usernames_auction_buy s auction_id buyer_id uid stamp q :
  players (auction_buy s auction_id buyer_id uid stamp).1 !! q ≫= username
  = players s !! q ≫= username.
Proof.
  unfold auction_buy.
  destruct (decide (buyer_id = "")); [done|].
  destruct (auctions s !! auction_key_of auction_id) as [a|]; [|done].
  destruct (gold_of s buyer_id <? current_price a); [done|].
  rewrite (hincrby_gold_pair buyer_id). cbv beta iota.
  rewrite (hincrby_gold_pair (seller a)). cbv beta iota. cbn [fst].
  change (players (set_active ?m1 (set_auctions ?m2 (rpush_inventory ?p ?x
            (zadd_lb_gold ?p1 ?v1 (zadd_lb_gold ?p2 ?v2 ?t))))))
    with (players t).
  by rewrite !username_hincrby.
Qed.

(** What a login that finds the name does, and what one that does not. *)
Lemma player_login_cases s name now_ms :
  (name = "" ∧ player_login s name now_ms = (s, LoginNameMissing))
  ∨ (name ≠ "" ∧ ∃ pid p,
       players s !! pid = Some p ∧ username p = Some name
       ∧ player_login s name now_ms
         = (set_players (<[pid := Player (username p) (gold p) (Some now_ms)]> (players s)) s,
            LoginExisting pid))
  ∨ (name ≠ "" ∧ (∀ pid p, players s !! pid = Some p → username p ≠ Some name)
     ∧ player_login s name now_ms
       = (zadd_lb_clicks (pretty now_ms) 0
            (zadd_lb_gold (pretty now_ms) 1000
               (set_players (<[pretty now_ms := Player (Some name) 1000 (Some now_ms)]>
                               (players s)) s)),
          LoginCreated (pretty now_ms))).
Proof.
  unfold player_login. destruct (decide (name = "")) as [->|Hne]; [by left|].
  right. destruct (list_find _ _) as [[i [pid p]]|] eqn:Hfind.
  - left. split; [done|]. apply list_find_Some in Hfind as (Hi & Hu & _).
    apply list_elem_of_lookup_2, elem_of_map_to_list in Hi. simpl in Hu.
    by exists pid, p.
  - right. split; [done|]. split; [|done].
    intros pid p Hp Hu. apply list_find_None in Hfind.
    rewrite Forall_forall in Hfind.
    apply (Hfind (pid, p)); [by apply elem_of_map_to_list|done].
Qed.

Lemma names_unique_login s name now_ms :
  names_unique s → names_unique (player_login s name now_ms).1.
Proof.
  intros Hu.
  destruct (player_login_cases s name now_ms)
    as [[_ ->]|[(_ & pid & p & Hp & Hn & ->)|(_ & Hnone & ->)]]; [done|..].
  - eapply names_unique_same; [|exact Hu]. intros q. cbn [fst]. simpl.
    destruct (decide (q = pid)) as [->|Hq].
    + by rewrite lookup_insert_eq, Hp.
    + by rewrite lookup_insert_ne.
  - cbn [fst]. intros pid1 pid2 p1 p2 n. simpl.
    destruct (decide (pid1 = pretty now_ms)) as [->|H1],
             (decide (pid2 = pretty now_ms)) as [->|H2];
      rewrite ?lookup_insert_eq, ?lookup_insert_ne by done; [done|..].
    + intros [= <-] Hp2 [= <-] U2. by destruct (Hnone pid2 p2).
    + intros Hp1 [= <-] U1 [= <-]. by destruct (Hnone pid1 p1).
    + by apply Hu.
Qed.

Lemma names_unique_handle s r : names_unique s → names_unique (handle s r).
Proof.
  intros Hu. destruct r; simpl.
  - destruct (init_game_data_frame s) as (H&_).
    eapply names_unique_same; [|exact Hu]. intros q. by rewrite H.
  - by apply names_unique_login.
  - eapply names_unique_same; [|exact Hu]. apply usernames_click.
  - eapply names_unique_same; [|exact Hu].
    apply (shop_buy_frame s player_id item_id quantity draw).
  - destruct (auction_create_frame s pid uid starting_price now_ms) as (H&_).
    eapply names_unique_same; [|exact Hu]. intros q. by rewrite H.
  - eapply names_unique_same; [|exact Hu]. apply usernames_auction_bid.
  - eapply names_unique_same; [|exact Hu]. apply usernames_auction_buy.
  - unfold admin_set_cooldown. by destruct (require_admin _ _).
  - unfold admin_set_rate_limit. by destruct (require_admin _ _).
Qed.

(** X9.  Whatever the requests served so far, no two player hashes carry the
    same name: [player_login] creates a player only when its scan has found
    the name nowhere, and no other handler writes a name. *)
Theorem usernames_stay_unique s :
  reachable s →
  ∀ pid1 pid2 p1 p2 name,
    players s !! pid1 = Some p1 → players s !! pid2 = Some p2 →
    username p1 = Some name → username p2 = Some name → pid1 = pid2.
Proof.
  induction 1 as [|s r _ IH _].
  - intros pid1 pid2 p1 p2 name H. simpl in H. by rewrite lookup_empty in H.
  - by apply names_unique_handle.
Qed.

(** X10.  Logging in is idempotent.  Once a login has created a player,
    every later login under the same name, at any instant, is answered with
    the same id and creates nothing: the balance, the two leaderboards and
    everything else but [last_login] are what the creation left. *)
Theorem login_again_same_player s name t1 s1 pid t2 :
  player_login s name t1 = (s1, LoginCreated pid) →
  ∃ s2, player_login s1 name t2 = (s2, LoginExisting pid)
    ∧ players s2 = <[pid := Player (Some name) 1000 (Some t2)]> (players s1)
    ∧ gold_of s2 pid = 1000
    ∧ lb_gold s2 = lb_gold s1 ∧ lb_clicks s2 = lb_clicks s1
    ∧ inventory s2 = inventory s1 ∧ clicks s2 = clicks s1
    ∧ (∀ q, q ≠ pid → players s2 !! q = players s1 !! q).
Proof.
  intros H1.
  destruct (player_login_cases s name t1)
    as [[_ E]|[(_ & pid0 & p & _ & _ & E)|(Hne & Hnone & E)]];
    rewrite E in H1; [done|done|]. injection H1 as <- <-.
  set (s1 := zadd_lb_clicks _ _ _) in *.
  assert (Hp1 : players s1 !! pretty t1 = Some (Player (Some name) 1000 (Some t1))).
  { subst s1. simpl. by rewrite lookup_insert_eq. }
  destruct (player_login_cases s1 name t2)
    as [[-> _]|[(_ & pid' & p' & Hp' & Hn' & E2)|(_ & Hnone' & _)]]; [done| |].
  2:{ by destruct (Hnone' _ _ Hp1). }
  assert (pid' = pretty t1) as ->.
  { destruct (decide (pid' = pretty t1)) as [|Hq]; [done|].
    subst s1. simpl in Hp'. rewrite lookup_insert_ne in Hp' by done.
    by destruct (Hnone pid' p'). }
  rewrite Hp1 in Hp'. injection Hp' as <-. rewrite E2. simpl.
  eexists. split; [reflexivity|]. simpl.
  split; [done|]. split.
  { unfold gold_of, hget_gold. simpl. by rewrite lookup_insert_eq. }
  repeat split; try done. intros q Hq. by rewrite lookup_insert_ne.
Qed.

(** ** Listing and escrow of auctions *)

Lemma redis_range_all {A} (l : list A) : redis_range 0 (-1) l = l.
Proof.
  unfold redis_range. simpl.
  destruct l as [|x l]; [done|].
  set (n := Z.of_nat (length (x :: l))).
  assert (0 < n) by (subst n; simpl; lia).
  replace (n + -1) with (n - 1) by lia.
  destruct (Z.ltb_spec (n - 1) 0); [lia|]. simpl.
  destruct (Z.leb_spec n 0); [lia|]. simpl.
  destruct (Z.leb_spec n (n - 1)); [lia|].
  replace (Z.to_nat (n - 1 - 0 + 1)) with (length (x :: l)) by (subst n; lia).
  apply firstn_all.
Qed.

Lemma elem_of_auction_list s k a :
  (k, a) ∈ auction_list s ↔ is_Some (active s !! k) ∧ auctions s !! k = Some a.
Proof.
  unfold auction_list, zrange. rewrite redis_range_all, list_elem_of_omap. split.
  - intros ([k' v] & Hin & Heq). simpl in Heq.
    apply elem_of_zset_ascending in Hin.
    destruct (auctions s !! k') as [a'|] eqn:E; [|done]. simpl in Heq.
    injection Heq as <- <-. eauto.
  - intros [[v Hv] Ha]. exists (k, v). split; [by apply elem_of_zset_ascending|].
    simpl. by rewrite Ha.
Qed.

Lemma auction_list_keys_NoDup s : NoDup (auction_list s).*1.
Proof.
  unfold auction_list, zrange. rewrite redis_range_all.
  assert (Hnd : NoDup (zset_ascending (active s)).*1).
  { unfold zset_ascending. rewrite merge_sort_Permutation.
    apply NoDup_fst_map_to_list. }
  induction (zset_ascending (active s)) as [|[k v] l IH]; [constructor|].
  simpl in Hnd. apply NoDup_cons in Hnd as [Hk Hnd]. simpl.
  destruct (auctions s !! k) as [a|]; simpl; [|by apply IH].
  apply NoDup_cons. split; [|by apply IH].
  intros Hin. apply Hk. apply list_elem_of_fmap in Hin as ([k' a'] & -> & Hin).
  apply list_elem_of_omap in Hin as ([k2 v2] & Hin & Heq). simpl in Heq.
  destruct (auctions s !! k2); [|done]. simpl in Heq. injection Heq as Hk2 _.
  apply list_elem_of_fmap. exists (k2, v2). split; [simpl in *; congruence|done].
Qed.

Lemma prefix_append p x : String.prefix p (p +:+ x) = true.
Proof.
  induction p as [|c p IH]; [by destruct x|].
  change (String c p +:+ x) with (String c (p +:+ x)). simpl.
  by destruct (Ascii.ascii_dec c c).
Qed.

Lemma auction_key_of_prefixed x : auction_key_of ("auction:" +:+ x) = "auction:" +:+ x.
Proof. unfold auction_key_of. by rewrite prefix_append. Qed.

Lemma auction_key_of_idemp x : auction_key_of (auction_key_of x) = auction_key_of x.
Proof.
  unfold auction_key_of. destruct (String.prefix "auction:" x) eqn:E.
  - by rewrite E.
  - by rewrite prefix_append.
Qed.

Lemma auctions_indexed_handle s r : auctions_indexed s → auctions_indexed (handle s r).
Proof.
  intros [H1 H2]. destruct r; simpl.
  - destruct (init_game_data_frame s) as (_&_&_&_&_&_&_&_&Ha&Hb&_).
    unfold auctions_indexed. by rewrite Ha, Hb.
  - destruct (player_login_frame s name now_ms) as (_&_&_&_&_&_&_&Ha&Hb&_).
    unfold auctions_indexed. by rewrite Ha, Hb.
  - destruct (click_frame s player_id now_ms is_critical) as (_&_&_&Ha&Hb&_).
    unfold auctions_indexed. by rewrite Ha, Hb.
  - destruct (shop_buy_frame s player_id item_id quantity draw)
      as (_&_&_&_&_&_&Ha&Hb&_).
    unfold auctions_indexed. by rewrite Ha, Hb.
  - unfold auction_create.
    destruct (find_unique _ _) as [[idx it]|]; [|done].
    destruct (_ ≫= username) as [nm|]; [|done].
    cbn [fst]. split; simpl.
    + intros k. destruct (decide (k = "auction:" +:+ pretty now_ms)) as [->|Hk].
      * rewrite !lookup_insert_eq. by split; eauto.
      * rewrite !lookup_insert_ne by done. apply H1.
    + intros k. destruct (decide (k = "auction:" +:+ pretty now_ms)) as [->|Hk].
      * intros _. apply auction_key_of_prefixed.
      * rewrite lookup_insert_ne by done. apply H2.
  - pose proof (auction_bid_frame s aid pid bid_amount) as Hf. cbv zeta in Hf.
    destruct Hf as (_&_&_&_&_&_&_&_&Hact&_).
    assert (Hk : ∀ k, is_Some (auctions (auction_bid s aid pid bid_amount).1 !! k)
                      ↔ is_Some (auctions s !! k)).
    { intros k. unfold auction_bid.
      destruct (auctions s !! aid) as [a|] eqn:Ha; [|done].
      destruct (bid_amount <=? current_price a); [done|].
      destruct (hget_gold s pid) as [g|]; [|done].
      destruct (g <? bid_amount); [done|].
      assert (Hs1 : (if decide (highest_bidder a = "") then s
                     else let '(s', new_prev_gold) :=
                            hincrby_gold (highest_bidder a) (current_price a) s in
                          zadd_lb_gold (highest_bidder a) new_prev_gold s')
                    = bid_refunded s a).
      { unfold bid_refunded. by destruct (decide (highest_bidder a = "")). }
      rewrite Hs1. rewrite (hincrby_gold_pair pid). cbv beta iota.
      fold (bid_debited s a pid bid_amount).
      assert (Hau : auctions (bid_debited s a pid bid_amount) = auctions s).
      { unfold bid_debited, bid_refunded.
        by destruct (decide (highest_bidder a = "")). }
      destruct (players (bid_debited s a pid bid_amount) !! pid ≫= username);
        cbn [fst auctions set_auctions]; rewrite Hau; [|done].
      destruct (decide (k = aid)) as [->|Hne].
      - rewrite lookup_insert_eq, Ha. by split; eauto.
      - by rewrite lookup_insert_ne. }
    split.
    + intros k. rewrite Hact, Hk. apply H1.
    + intros k. rewrite Hk. apply H2.
  - unfold auction_buy.
    destruct (decide (buyer_id = "")); [done|].
    destruct (auctions s !! auction_key_of auction_id) as [a|]; [|done].
    destruct (gold_of s buyer_id <? current_price a); [done|].
    rewrite (hincrby_gold_pair buyer_id). cbv beta iota.
    rewrite (hincrby_gold_pair (seller a)). cbv beta iota. cbn [fst].
    split; simpl.
    + intros k. destruct (decide (k = auction_key_of auction_id)) as [->|Hk].
      * rewrite !lookup_delete_eq. split; by intros [? ?].
      * rewrite !lookup_delete_ne by done. apply H1.
    + intros k. destruct (decide (k = auction_key_of auction_id)) as [->|Hk].
      * rewrite lookup_delete_eq. by intros [? ?].
      * rewrite lookup_delete_ne by done. apply H2.
  - unfold admin_set_cooldown. by destruct (require_admin _ _).
  - unfold admin_set_rate_limit. by destruct (require_admin _ _).
Qed.

Lemma reachable_auctions_indexed s : reachable s → auctions_indexed s.
Proof.
  induction 1 as [|s r _ IH _]; [|by apply auctions_indexed_handle].
  split; intros k; simpl; rewrite ?lookup_empty; [done|by intros [? ?]].
Qed.

(** X14.  Whatever the requests served so far, [auction_list] shows every
    auction hash of the store with its fields, each once, and nothing else;
    and every auction key carries the prefix, so that the listed id is taken
    as it is by the buyout. *)
Theorem auction_list_complete s :
  reachable s →
  (∀ k a, (k, a) ∈ auction_list s ↔ auctions s !! k = Some a)
  ∧ NoDup (auction_list s).*1
  ∧ (∀ k a, (k, a) ∈ auction_list s → auction_key_of k = k).
Proof.
  intros Hr. destruct (reachable_auctions_indexed s Hr) as [H1 H2].
  assert (Hiff : ∀ k a, (k, a) ∈ auction_list s ↔ auctions s !! k = Some a).
  { intros k a. rewrite elem_of_auction_list. split; [by intros [_ ?]|].
    intros Ha. split; [|done]. apply H1. eauto. }
  split; [exact Hiff|]. split; [apply auction_list_keys_NoDup|].
  intros k a Hin. apply H2. apply Hiff in Hin. eauto.
Qed.

(** X11.  Listing an item.  When the inventory of a player with a name holds
    an entry with the given [unique_id], [auction_create] takes the first
    such entry out of the inventory (the other entries keep their order) and
    holds it in a new auction under the key [auction:<now>], at the starting
    price and without bidder, which [auction_list] shows.  No balance and no
    leaderboard changes. *)
Theorem auction_create_escrow s pid uid starting_price now_ms p name idx it :
  find_unique uid (default [] (inventory s !! pid)) = Some (idx, it) →
  players s !! pid = Some p →
  username p = Some name →
  let key := "auction:" +:+ pretty now_ms in
  let listing := Auction pid name (inv_item_id it) (inv_name it)
                   starting_price "" "" now_ms in
  ∃ s', auction_create s pid uid starting_price now_ms = (s', CreateOk key)
    ∧ default [] (inventory s' !! pid) = delete idx (default [] (inventory s !! pid))
    ∧ default [] (inventory s !! pid) !! idx = Some it
    ∧ unique_id it = uid
    ∧ (∀ j d, default [] (inventory s !! pid) !! j = Some d → (j < idx)%nat →
         unique_id d ≠ uid)
    ∧ (∀ q, q ≠ pid → inventory s' !! q = inventory s !! q)
    ∧ auctions s' !! key = Some listing
    ∧ (key, listing) ∈ auction_list s'
    ∧ auction_key_of key = key
    ∧ players s' = players s ∧ lb_gold s' = lb_gold s.
Proof.
  intros Hfind Hp Hn key listing. unfold auction_create. rewrite Hfind.
  assert (Hname : ∀ m, players (set_inventory m s) !! pid ≫= username = Some name).
  { intros m. simpl. by rewrite Hp. }
  rewrite Hname. eexists. split; [reflexivity|].
  unfold find_unique in Hfind. apply list_find_Some in Hfind as (Hi & Hu & Hfirst).
  split.
  { simpl. destruct (delete idx (default [] (inventory s !! pid))) eqn:E.
    - by rewrite lookup_delete_eq.
    - by rewrite lookup_insert_eq. }
  split; [done|]. split; [done|]. split; [intros j d Hj Hlt; by eapply Hfirst|].
  split.
  { intros q Hq. simpl. destruct (delete idx (default [] (inventory s !! pid))).
    - by rewrite lookup_delete_ne.
    - by rewrite lookup_insert_ne. }
  split; [simpl; by rewrite lookup_insert_eq|].
  split.
  { apply elem_of_auction_list. simpl. rewrite !lookup_insert_eq. eauto. }
  split; [apply auction_key_of_prefixed|]. by split.
Qed.

(** X12.  [auction_create] answers 404 exactly when no entry of the player's
    inventory has the given [unique_id] (in particular for a player without
    inventory), and it then returns the store as it was. *)
Theorem auction_create_not_found s pid uid starting_price now_ms :
  let '(s', r) := auction_create s pid uid starting_price now_ms in
  (r = CreateItemNotFound
   ↔ ∀ d, d ∈ default [] (inventory s !! pid) → unique_id d ≠ uid)
  ∧ (r = CreateItemNotFound → s' = s).
Proof.
  unfold auction_create, find_unique.
  destruct (list_find _ _) as [[idx it]|] eqn:Hfind.
  - apply list_find_Some in Hfind as (Hi & Hu & _).
    assert (Hin : it ∈ default [] (inventory s !! pid))
      by (by eapply list_elem_of_lookup_2).
    destruct (_ ≫= username); (split; [split; [done|]|done]);
      intros Hall; by destruct (Hall it Hin).
  - apply list_find_None in Hfind. rewrite Forall_forall in Hfind.
    by repeat split.
Qed.

(** X13.  A hash without [username] that lists an item (a hash that only
    [HINCRBY] has created): the item leaves the inventory, the write of the
    auction raises, and no auction exists for it afterwards. *)
Theorem auction_create_nameless s pid uid starting_price now_ms idx it :
  find_unique uid (default [] (inventory s !! pid)) = Some (idx, it) →
  players s !! pid ≫= username = None →
  ∃ s', auction_create s pid uid starting_price now_ms = (s', CreateRaised)
    ∧ default [] (inventory s' !! pid) = delete idx (default [] (inventory s !! pid))
    ∧ auctions s' = auctions s ∧ active s' = active s
    ∧ auction_list s' = auction_list s.
Proof.
  intros Hfind Hn. unfold auction_create. rewrite Hfind.
  assert (Hname : ∀ m, players (set_inventory m s) !! pid ≫= username = None)
    by (intros m; exact Hn).
  rewrite Hname. eexists. split; [reflexivity|]. split; [|done].
  simpl. destruct (delete idx (default [] (inventory s !! pid))) eqn:E.
  - by rewrite lookup_delete_eq.
  - by rewrite lookup_insert_eq.
Qed.

(** X15.  [auction_buy] takes the id of an auction with or without the
    prefix [auction:] and never adds the prefix twice. *)
Theorem auction_buy_prefix s auction_id buyer_id uid stamp :
  auction_key_of (auction_key_of auction_id) = auction_key_of auction_id
  ∧ auction_buy s (auction_key_of auction_id) buyer_id uid stamp
    = auction_buy s auction_id buyer_id uid stamp
  ∧ auction_buy s ("auction:" +:+ auction_id) buyer_id uid stamp
    = auction_buy s (auction_key_of ("auction:" +:+ auction_id)) buyer_id uid stamp.
Proof.
  split; [apply auction_key_of_idemp|]. split.
  - unfold auction_buy. by rewrite auction_key_of_idemp.
  - by rewrite auction_key_of_prefixed.
Qed.


(** ** From listing to buyout *)



(** X18.  Bids keep the listings.  Whatever its outcome, a bid creates and
    deletes no auction, leaves the set of active auctions and every
    inventory as they were, changes no other auction than the one it names,
    and on that one keeps the seller, the item and the creation time and
    never lowers the price. *)
Theorem bids_keep_listings s aid pid amount k a :
  auctions s !! k = Some a →
  let s' := (auction_bid s aid pid amount).1 in
  active s' = active s ∧ inventory s' = inventory s
  ∧ (∀ k', is_Some (auctions s' !! k') ↔ is_Some (auctions s !! k'))
  ∧ ∃ a', auctions s' !! k = Some a'
      ∧ seller a' = seller a ∧ seller_name a' = seller_name a
      ∧ auc_item_id a' = auc_item_id a ∧ auc_item_name a' = auc_item_name a
      ∧ created_at a' = created_at a
      ∧ current_price a ≤ current_price a'
      ∧ (k ≠ aid → a' = a)
      ∧ (a' ≠ a → current_price a' = amount ∧ highest_bidder a' = pid
                  ∧ current_price a < amount ∧ amount ≤ gold_of s pid).
Proof.
  intros Hk s'. subst s'.
  pose proof (auction_bid_frame s aid pid amount) as Hf. cbv zeta in Hf.
  destruct Hf as (Hinv&_&_&_&_&_&_&_&Hact&_).
  split; [done|]. split; [done|].
  unfold auction_bid.
  destruct (auctions s !! aid) as [a0|] eqn:Ha;
    [|split; [done|]; exists a; by repeat split].
  destruct (Z.leb_spec amount (current_price a0));
    [split; [done|]; exists a; by repeat split|].
  destruct (hget_gold s pid) as [g|] eqn:Hgold;
    [|split; [done|]; exists a; by repeat split].
  destruct (Z.ltb_spec g amount);
    [split; [done|]; exists a; by repeat split|].
  assert (Hs1 : (if decide (highest_bidder a0 = "") then s
                 else let '(s', new_prev_gold) :=
                        hincrby_gold (highest_bidder a0) (current_price a0) s in
                      zadd_lb_gold (highest_bidder a0) new_prev_gold s')
                = bid_refunded s a0).
  { unfold bid_refunded. by destruct (decide (highest_bidder a0 = "")). }
  rewrite Hs1. rewrite (hincrby_gold_pair pid). cbv beta iota.
  fold (bid_debited s a0 pid amount).
  assert (Hau : auctions (bid_debited s a0 pid amount) = auctions s).
  { unfold bid_debited, bid_refunded.
    by destruct (decide (highest_bidder a0 = "")). }
  destruct (players (bid_debited s a0 pid amount) !! pid ≫= username) as [nm|];
    cbn [fst auctions set_auctions]; rewrite Hau;
    [|split; [done|]; exists a; by repeat split].
  split.
  { intros k'. destruct (decide (k' = aid)) as [->|Hne].
    - rewrite lookup_insert_eq, Ha. by split; eauto.
    - by rewrite lookup_insert_ne. }
  destruct (decide (k = aid)) as [->|Hne].
  - rewrite lookup_insert_eq. rewrite Ha in Hk. injection Hk as ->.
    eexists. split; [reflexivity|]. simpl.
    do 5 (split; [done|]). split; [lia|]. split; [done|].
    intros _. rewrite (hget_gold_of _ _ _ Hgold). repeat split; [done|lia].
  - rewrite lookup_insert_ne by done. exists a. by repeat split.
Qed.

(** X19.  A bid that cannot be paid for by a hash without balance.  When the
    bidder's hash has no [gold] field (no such player, for one), a bid above
    the price raises before anything is written: the answer is the error and
    the store is as it was. *)
Theorem bid_without_balance s aid pid amount a :
  auctions s !! aid = Some a →
  current_price a < amount →
  hget_gold s pid = None →
  auction_bid s aid pid amount = (s, BidRaised).
Proof.
  intros Ha Hlt Hg. unfold auction_bid. rewrite Ha, Hg.
  by destruct (Z.leb_spec amount (current_price a)); [lia|].
Qed.

(** ** Ranks *)

Lemma redis_range_prefix {A} n (l : list A) :
  1 ≤ n → redis_range 0 (n - 1) l = take (Z.to_nat n) l.
Proof.
  intros Hn. unfold redis_range. cbv zeta.
  rewrite !Z.ltb_irrefl, !(proj2 (Z.ltb_ge (n - 1) 0)) by lia. cbn [orb].
  change (Z.to_nat 0) with 0%nat. rewrite drop_0.
  destruct (Z.leb_spec (Z.of_nat (length l)) 0).
  - destruct l; [by rewrite take_nil|simpl in *; lia].
  - destruct (Z.leb_spec (Z.of_nat (length l)) (n - 1)).
    + rewrite !take_ge; [done|lia|lia].
    + f_equal. lia.
Qed.

Lemma number_rows_take s n : ∀ top k,
  number_rows s k (take n top) = take n (number_rows s k top).
Proof.
  induction n as [|n IH]; intros [|[m v] top] k; simpl; try done.
  by rewrite IH.
Qed.

Lemma number_rows_ids s top : ∀ k, lb_player_id <$> number_rows s k top = top.*1.
Proof. induction top as [|[m v] top IH]; intros k; simpl; [done|]. by rewrite IH. Qed.

Lemma number_rows_lookup s top : ∀ k i pid v,
  top !! i = Some (pid, v) →
  number_rows s k top !! i
  = Some (LeaderboardEntry (k + Z.of_nat i) pid (players s !! pid ≫= username) v).
Proof.
  induction top as [|[m w] top IH]; intros k i pid v; [done|].
  destruct i as [|i]; simpl.
  - intros [= -> ->]. do 2 f_equal. lia.
  - intros H. rewrite (IH _ _ _ _ H). do 2 f_equal. lia.
Qed.

Lemma zset_ascending_keys_NoDup z : NoDup (zset_ascending z).*1.
Proof.
  unfold zset_ascending. rewrite merge_sort_Permutation.
  apply NoDup_fst_map_to_list.
Qed.

Lemma zset_ascending_length z : length (zset_ascending z) = size z.
Proof.
  unfold zset_ascending. rewrite merge_sort_Permutation.
  apply length_map_to_list.
Qed.

Lemma full_board s board_type :
  get_leaderboard s board_type 0
  = number_rows s 1 (reverse (zset_ascending (board s board_type))).
Proof. unfold get_leaderboard, zrevrange. by rewrite redis_range_all. Qed.

Lemma zrevrank_Some z m v :
  z !! m = Some v →
  ∃ i, zrevrank z m = Some i ∧ reverse (zset_ascending z) !! i = Some (m, v).
Proof.
  intros Hz. unfold zrevrank.
  assert (Hin : (m, v) ∈ reverse (zset_ascending z))
    by (by apply elem_of_reverse, elem_of_zset_ascending).
  destruct (list_find_elem_of (λ e : string * Z, e.1 = m) _ (m, v) Hin eq_refl)
    as [[i [m' v']] Hfind].
  rewrite Hfind. exists i. split; [done|].
  apply list_find_Some in Hfind as (Hi & Hm & _). simpl in Hm. subst m'.
  rewrite Hi. do 2 f_equal.
  apply list_elem_of_lookup_2, elem_of_reverse, elem_of_zset_ascending in Hi.
  congruence.
Qed.

Lemma zrevrank_None z m : z !! m = None → zrevrank z m = None.
Proof.
  intros Hz. unfold zrevrank.
  destruct (list_find _ _) as [[i [m' v']]|] eqn:Hfind; [|done].
  apply list_find_Some in Hfind as (Hi & Hm & _). simpl in Hm. subst m'.
  apply list_elem_of_lookup_2, elem_of_reverse, elem_of_zset_ascending in Hi.
  congruence.
Qed.

(** X20.  The size of a leaderboard answer.  With [limit] 0 the query
    answers the whole board, not nothing: one row for each member, with its
    score.  With a [limit] of 1 or more it answers the first [limit] rows
    of that, or all of them when the board is smaller.  A board type other
    than [gold] and [clicks] has no rows. *)
Theorem leaderboard_top_n s board_type limit :
  let full := get_leaderboard s board_type 0 in
  length full = size (board s board_type)
  ∧ NoDup (lb_player_id <$> full)
  ∧ (∀ pid v, board s board_type !! pid = Some v
              ↔ ∃ r, r ∈ full ∧ lb_player_id r = pid ∧ lb_score r = v)
  ∧ (1 ≤ limit →
     get_leaderboard s board_type limit = take (Z.to_nat limit) full
     ∧ length (get_leaderboard s board_type limit)
       = (Z.to_nat limit `min` size (board s board_type))%nat)
  ∧ (board_type ≠ "gold" → board_type ≠ "clicks" →
     get_leaderboard s board_type limit = []).
Proof.
  intros full. subst full. rewrite full_board.
  set (z := board s board_type).
  assert (Hlen : length (number_rows s 1 (reverse (zset_ascending z))) = size z)
    by (by rewrite number_rows_length, length_reverse, zset_ascending_length).
  split; [exact Hlen|]. split.
  { rewrite number_rows_ids, fmap_reverse, reverse_Permutation.
    apply zset_ascending_keys_NoDup. }
  split.
  { intros pid v. split.
    - intros Hz. destruct (zrevrank_Some z pid v Hz) as (i & _ & Hi).
      exists (LeaderboardEntry (1 + Z.of_nat i) pid (players s !! pid ≫= username) v).
      split; [|done].
      eapply list_elem_of_lookup_2. exact (number_rows_lookup s _ 1 i pid v Hi).
    - intros (r & Hr & <- & <-). apply number_rows_elem in Hr as [Hr _].
      by apply elem_of_reverse, elem_of_zset_ascending in Hr. }
  split.
  { intros Hl.
    assert (Heq : get_leaderboard s board_type limit
                  = take (Z.to_nat limit)
                      (number_rows s 1 (reverse (zset_ascending z)))).
    { unfold get_leaderboard, zrevrange. fold z.
      by rewrite redis_range_prefix, number_rows_take. }
    split; [exact Heq|]. by rewrite Heq, length_take, Hlen. }
  intros H1 H2. unfold get_leaderboard, zrevrange.
  assert (Hz : board s board_type = ∅)
    by (unfold board; by rewrite !decide_False).
  assert (He : zset_ascending (∅ : gmap string Z) = [])
    by (apply length_zero_iff_nil; by rewrite zset_ascending_length, map_size_empty).
  rewrite Hz, He.
  assert (redis_range 0 (limit - 1) (reverse ([] : list (string * Z))) = []) as ->;
    [|done].
  apply sublist_nil_r. apply (redis_range_sublist 0 (limit - 1) []).
Qed.


(** X22.  [get_player] answers 404 exactly for an id without hash.  A
    member of no board has no rank in the answer, and a member of a board
    has one, between 1 and the size of the board. *)
Theorem player_view_ranks s pid now_ms :
  (get_player s pid now_ms = None ↔ players s !! pid = None)
  ∧ ∀ v, get_player s pid now_ms = Some v →
      (lb_gold s !! pid = None ↔ pv_gold_rank v = None)
      ∧ (lb_clicks s !! pid = None ↔ pv_click_rank v = None)
      ∧ (∀ k, pv_gold_rank v = Some k → 1 ≤ k ≤ Z.of_nat (size (lb_gold s)))
      ∧ (∀ k, pv_click_rank v = Some k → 1 ≤ k ≤ Z.of_nat (size (lb_clicks s))).
Proof.
  unfold get_player. destruct (players s !! pid) as [p|]; [|by split].
  split; [by split|]. intros v [= <-].
  cbn [pv_gold_rank pv_click_rank].
  assert (Hz : ∀ z : gmap string Z,
    (z !! pid = None ↔ (λ r, Z.of_nat r + 1) <$> zrevrank z pid = None)
    ∧ (∀ k, (λ r, Z.of_nat r + 1) <$> zrevrank z pid = Some k →
            1 ≤ k ≤ Z.of_nat (size z))).
  { intros z. destruct (z !! pid) as [w|] eqn:E.
    - destruct (zrevrank_Some z pid w E) as (i & -> & Hi). simpl.
      split; [by split|]. intros k [= <-].
      apply lookup_lt_Some in Hi.
      rewrite length_reverse, zset_ascending_length in Hi. lia.
    - rewrite (zrevrank_None z pid E). simpl. by split. }
  destruct (Hz (lb_gold s)) as [H1 H2]. destruct (Hz (lb_clicks s)) as [H3 H4].
  exact (conj H1 (conj H3 (conj H2 H4))).
Qed.

(** ** The shop window *)

Lemma elem_of_shop_items s e :
  e ∈ shop_items s
  ↔ items s !! se_id e = Some (se_item e) ∧ has_colon (se_id e) = false
    ∧ se_stock e = default 0 (stock s !! se_id e).
Proof.
  unfold shop_items. rewrite list_elem_of_omap. split.
  - intros ([id it] & Hin & He). apply elem_of_map_to_list in Hin.
    simpl in He. destruct (has_colon id) eqn:Hc; [done|].
    injection He as <-. by simpl.
  - intros (Hi & Hc & Hs). exists (se_id e, se_item e).
    split; [by apply elem_of_map_to_list|]. simpl. rewrite Hc, <-Hs.
    by destruct e.
Qed.

Lemma shop_items_ids_NoDup s : NoDup (se_id <$> shop_items s).
Proof.
  unfold shop_items.
  pose proof (NoDup_fst_map_to_list (items s)) as Hnd.
  induction (map_to_list (items s)) as [|[id it] l IH]; [constructor|].
  simpl in Hnd. apply NoDup_cons in Hnd as [Hk Hnd]. simpl.
  destruct (has_colon id); simpl; [by apply IH|].
  apply NoDup_cons. split; [|by apply IH].
  intros Hin. apply Hk. apply list_elem_of_fmap in Hin as (e & He & Hin).
  apply list_elem_of_omap in Hin as ([id' it'] & Hin & Heq). simpl in Heq.
  destruct (has_colon id'); [done|]. injection Heq as <-. simpl in He. subst id'.
  apply list_elem_of_fmap. by exists (id, it').
Qed.

(** X23.  The shop window.  [shop_items] lists each item hash whose id has
    no colon once, with the fields of the hash and its stock counter, 0 when
    the counter is absent; it lists nothing else.  After [init_game_data],
    whatever the store held before, every item of the catalogue is listed,
    with 100 in stock when it had no counter. *)
Theorem shop_window s :
  (∀ e, e ∈ shop_items s
        ↔ items s !! se_id e = Some (se_item e) ∧ has_colon (se_id e) = false
          ∧ se_stock e = default 0 (stock s !! se_id e))
  ∧ NoDup (se_id <$> shop_items s)
  ∧ (∀ id it, (id, it) ∈ catalogue →
       ∃ e, e ∈ shop_items (init_game_data s) ∧ se_id e = id
            ∧ (items s !! id = None → se_item e = it)
            ∧ (stock s !! id = None → se_stock e = 100)
            ∧ (∀ k, stock s !! id = Some k → se_stock e = k)).
Proof.
  split; [apply elem_of_shop_items|]. split; [apply shop_items_ids_NoDup|].
  intros id it Hin. rewrite init_game_data_unfold.
  destruct (seeding_lookup catalogue s) as [Hst Hit].
  assert (Hcolon : has_colon id = false).
  { assert (Hall : Forall (λ e : string * item, has_colon e.1 = false) catalogue)
      by (repeat constructor).
    rewrite Forall_forall in Hall. exact (Hall _ Hin). }
  assert (Hcat : (list_to_map catalogue : gmap string item) !! id = Some it).
  { apply elem_of_list_to_map; [|done].
    apply (bool_decide_unpack (NoDup catalogue.*1)). vm_compute. exact I. }
  assert (Hmem : id ∈ catalogue.*1)
    by (apply list_elem_of_fmap; by exists (id, it)).
  pose proof (Hit id) as Hi. pose proof (Hst id) as Hs.
  rewrite Hcat in Hi. rewrite (decide_True (P := id ∈ catalogue.*1)) in Hs by done.
  destruct (items s !! id) as [it0|] eqn:Ei; destruct (stock s !! id) as [k0|] eqn:Ek.
  - exists (ShopEntry id it0 k0). split.
    { apply elem_of_shop_items. cbn [se_id se_item se_stock].
      rewrite Hi, Hs. by repeat split. }
    repeat split; [done|done|by intros k [= <-]].
  - exists (ShopEntry id it0 100). split.
    { apply elem_of_shop_items. cbn [se_id se_item se_stock].
      rewrite Hi, Hs. by repeat split. }
    repeat split; done.
  - exists (ShopEntry id it k0). split.
    { apply elem_of_shop_items. cbn [se_id se_item se_stock].
      rewrite Hi, Hs. by repeat split. }
    repeat split; [done|by intros k [= <-]].
  - exists (ShopEntry id it 100). split.
    { apply elem_of_shop_items. cbn [se_id se_item se_stock].
      rewrite Hi, Hs. by repeat split. }
    repeat split; done.
Qed.


(** ** Goods *)

Lemma shop_buy_inventory s pid item_id q draw r d :
  d ∈ default [] (inventory (shop_buy s pid item_id q draw).1 !! r) →
  d ∈ default [] (inventory s !! r)
  ∨ ∃ it, items s !! item_id = Some it
          ∧ inv_item_id d = item_id ∧ inv_name d = item_name it.
Proof.
  unfold shop_buy, buy_script.
  destruct (items s !! item_id) as [it|]; [|by left].
  destruct (stock s !! item_id) as [k|]; [|by left].
  destruct (k <? q); [by left|].
  destruct (hget_gold s pid) as [g|]; [|by left].
  destruct (g <? item_price it * q); [by left|].
  rewrite (hincrby_gold_pair pid). cbv beta iota. cbn [fst].
  match goal with
  | |- context [foldl ?f ?s0 ?l] =>
    destruct (rpush_all pid
                (λ k, InventoryItem item_id (item_name it) (draw k).1 (draw k).2)
                l s0) as (_&_&_&_&_&_&_&_&_&_&_&Hown&Hothers&_)
  end.
  destruct (decide (r = pid)) as [->|Hne].
  - rewrite Hown. intros [Hd|Hd]%elem_of_app; [by left|right].
    apply list_elem_of_fmap in Hd as (j & -> & _). by exists it.
  - rewrite (Hothers r Hne). by left.
Qed.

Lemma auction_create_goods s pid uid price now_ms :
  let s' := (auction_create s pid uid price now_ms).1 in
  (∀ r d, d ∈ default [] (inventory s' !! r) → d ∈ default [] (inventory s !! r))
  ∧ (∀ k a, auctions s' !! k = Some a →
       auctions s !! k = Some a
       ∨ ∃ d, d ∈ default [] (inventory s !! pid)
              ∧ auc_item_id a = inv_item_id d ∧ auc_item_name a = inv_name d).
Proof.
  unfold auction_create.
  destruct (find_unique _ _) as [[idx it]|] eqn:Hfind; [|split; [done|by left]].
  apply list_find_Some in Hfind as (Hi & _ & _).
  assert (Hinv : ∀ r d,
    d ∈ default [] ((match delete idx (default [] (inventory s !! pid)) with
                     | [] => delete pid (inventory s)
                     | _ :: _ =>
                       <[pid := delete idx (default [] (inventory s !! pid))]>
                         (inventory s)
                     end) !! r) →
    d ∈ default [] (inventory s !! r)).
  { intros r d Hd. destruct (decide (r = pid)) as [->|Hne].
    - destruct (delete idx (default [] (inventory s !! pid))) eqn:E.
      + rewrite lookup_delete_eq in Hd. by apply elem_of_nil in Hd.
      + rewrite lookup_insert_eq in Hd. simpl in Hd. rewrite <-E in Hd.
        eapply elem_of_sublist; [exact Hd|]. apply sublist_delete.
    - destruct (delete idx (default [] (inventory s !! pid))).
      + by rewrite lookup_delete_ne in Hd.
      + by rewrite lookup_insert_ne in Hd. }
  destruct (_ ≫= username) as [nm|]; cbn [fst]; simpl.
  - split; [exact Hinv|].
    intros k a. destruct (decide (k = "auction:" +:+ pretty now_ms)) as [->|Hne].
    + rewrite lookup_insert_eq. intros [= <-]. right. exists it.
      split; [by eapply list_elem_of_lookup_2|done].
    + rewrite lookup_insert_ne by done. by left.
  - split; [exact Hinv|]. by left.
Qed.

Lemma auction_bid_goods s aid pid amount k a' :
  auctions (auction_bid s aid pid amount).1 !! k = Some a' →
  ∃ a, auctions s !! k = Some a
       ∧ auc_item_id a' = auc_item_id a ∧ auc_item_name a' = auc_item_name a.
Proof.
  unfold auction_bid.
  destruct (auctions s !! aid) as [a0|] eqn:Ha; [|by exists a'].
  destruct (amount <=? current_price a0); [by exists a'|].
  destruct (hget_gold s pid) as [g|]; [|by exists a'].
  destruct (g <? amount); [by exists a'|].
  assert (Hs1 : (if decide (highest_bidder a0 = "") then s
                 else let '(s', new_prev_gold) :=
                        hincrby_gold (highest_bidder a0) (current_price a0) s in
                      zadd_lb_gold (highest_bidder a0) new_prev_gold s')
                = bid_refunded s a0).
  { unfold bid_refunded. by destruct (decide (highest_bidder a0 = "")). }
  rewrite Hs1. rewrite (hincrby_gold_pair pid). cbv beta iota.
  fold (bid_debited s a0 pid amount).
  assert (Hau : auctions (bid_debited s a0 pid amount) = auctions s).
  { unfold bid_debited, bid_refunded.
    by destruct (decide (highest_bidder a0 = "")). }
  destruct (players (bid_debited s a0 pid amount) !! pid ≫= username) as [nm|];
    cbn [fst auctions set_auctions]; rewrite Hau; [|by exists a'].
  destruct (decide (k = aid)) as [->|Hne].
  - rewrite lookup_insert_eq. intros [= <-]. by exists a0.
  - rewrite lookup_insert_ne by done. by exists a'.
Qed.

Lemma auction_buy_goods s auction_id buyer_id uid stamp :
  let s' := (auction_buy s auction_id buyer_id uid stamp).1 in
  (∀ r d, d ∈ default [] (inventory s' !! r) →
     d ∈ default [] (inventory s !! r)
     ∨ ∃ a, auctions s !! auction_key_of auction_id = Some a
            ∧ inv_item_id d = auc_item_id a ∧ inv_name d = auc_item_name a)
  ∧ (∀ k a, auctions s' !! k = Some a → auctions s !! k = Some a).
Proof.
  unfold auction_buy.
  destruct (decide (buyer_id = "")); [split; [by left|done]|].
  destruct (auctions s !! auction_key_of auction_id) as [a|] eqn:Ha;
    [|split; [by left|done]].
  destruct (gold_of s buyer_id <? current_price a); [split; [by left|done]|].
  rewrite (hincrby_gold_pair buyer_id). cbv beta iota.
  rewrite (hincrby_gold_pair (seller a)). cbv beta iota. cbn [fst]. simpl.
  split.
  - intros r d. destruct (decide (r = buyer_id)) as [->|Hne].
    + rewrite lookup_insert_eq. simpl. intros [Hd|Hd]%elem_of_app; [by left|right].
      apply list_elem_of_singleton in Hd as ->. by exists a.
    + rewrite lookup_insert_ne by done. by left.
  - intros k a'. destruct (decide (k = auction_key_of auction_id)) as [->|Hne].
    + by rewrite lookup_delete_eq.
    + by rewrite lookup_delete_ne.
Qed.

Lemma goods_genuine_handle s r : goods_genuine s → goods_genuine (handle s r).
Proof.
  intros (Hit & Hinv & Hau). destruct r; simpl.
  - destruct (init_game_data_frame s) as (_&Hi&_&_&_&_&_&_&Ha&_).
    unfold goods_genuine. rewrite Hi, Ha. split; [|by split].
    intros id it. rewrite init_game_data_unfold.
    destruct (seeding_lookup catalogue s) as [_ Hl]. rewrite Hl.
    destruct (items s !! id) as [it0|] eqn:E; [intros [= <-]; by apply Hit|].
    apply elem_of_list_to_map_2.
  - destruct (player_login_frame s name now_ms) as (Hi&_&_&_&_&Hm&_&Ha&_).
    unfold goods_genuine. by rewrite Hi, Hm, Ha.
  - destruct (click_frame s player_id now_ms is_critical) as (Hi&Hm&_&Ha&_).
    unfold goods_genuine. by rewrite Hi, Hm, Ha.
  - destruct (shop_buy_frame s player_id item_id quantity draw)
      as (_&_&_&_&_&Hm&Ha&_).
    unfold goods_genuine. rewrite Hm, Ha. split; [done|]. split; [|done].
    intros pid d Hd.
    apply shop_buy_inventory in Hd as [Hd|(it & Hi & -> & ->)];
      [exact (Hinv _ _ Hd)|].
    exists it. split; [by apply Hit|done].
  - destruct (auction_create_frame s pid uid starting_price now_ms)
      as (_&_&_&_&_&_&_&Hm&_).
    destruct (auction_create_goods s pid uid starting_price now_ms) as [Hi Ha].
    split; [by rewrite Hm|]. split.
    + intros q d Hd. exact (Hinv _ _ (Hi _ _ Hd)).
    + intros k a Hk. apply Ha in Hk as [Hk|(d & Hd & -> & ->)]; [exact (Hau _ _ Hk)|].
      exact (Hinv _ _ Hd).
  - pose proof (auction_bid_frame s aid pid bid_amount) as Hf. cbv zeta in Hf.
    destruct Hf as (Hi&_&_&_&_&_&Hm&_).
    split; [by rewrite Hm|]. split; [by rewrite Hi|].
    intros k a' Hk. apply auction_bid_goods in Hk as (a & Hk & -> & ->).
    exact (Hau _ _ Hk).
  - destruct (auction_buy_frame s auction_id buyer_id uid stamp)
      as (_&_&_&_&_&Hm&_).
    destruct (auction_buy_goods s auction_id buyer_id uid stamp) as [Hi Ha].
    split; [by rewrite Hm|]. split.
    + intros q d Hd. apply Hi in Hd as [Hd|(a & Hk & -> & ->)]; [exact (Hinv _ _ Hd)|].
      exact (Hau _ _ Hk).
    + intros k a Hk. exact (Hau _ _ (Ha _ _ Hk)).
  - unfold admin_set_cooldown. by destruct (require_admin _ _).
  - unfold admin_set_rate_limit. by destruct (require_admin _ _).
Qed.

(** X25.  Goods are never forged.  Whatever the requests served so far,
    every item hash is an item of the catalogue, and every inventory entry
    and every auction carries the id of a catalogue item together with the
    name of that item: a purchase copies them from the item hash, a listing
    from the inventory entry, a buyout from the auction, and a bid leaves
    them alone. *)
Theorem goods_stay_genuine s :
  reachable s →
  (∀ id it, items s !! id = Some it → (id, it) ∈ catalogue)
  ∧ (∀ pid inv d, inventory s !! pid = Some inv → d ∈ inv →
       ∃ it, (inv_item_id d, it) ∈ catalogue ∧ item_name it = inv_name d)
  ∧ (∀ k a, auctions s !! k = Some a →
       ∃ it, (auc_item_id a, it) ∈ catalogue ∧ item_name it = auc_item_name a).
Proof.
  intros Hr.
  assert (Hg : goods_genuine s).
  { induction Hr as [|s r _ IH _]; [|by apply goods_genuine_handle].
    split; [|split]; intros ? ?; simpl; rewrite ?lookup_empty; try done.
    intros H. by apply elem_of_nil in H. }
  destruct Hg as (H1 & H2 & H3). split; [exact H1|]. split; [|exact H3].
  intros pid inv d Hi Hd. apply (H2 pid). by rewrite Hi.
Qed.

(** ** Instances of the further properties *)

Lemma ann_clicked_reachable : reachable ann_clicked.
Proof. apply (reach_step _ (ReqClick _ _ _)); [apply with_ann_reachable|exact I]. Qed.

Lemma ghost_owns_reachable : reachable ghost_owns.
Proof.
  apply (reach_step _ (ReqAuctionBuy _ _ _ _)); [|exact I].
  apply (reach_step _ (ReqAuctionCreate _ _ _ _)); [|exact I].
  apply (reach_step _ (ReqShopBuy _ _ _ _)); [|exact I].
  apply with_bob_reachable.
Qed.

Lemma click_not_accepted_frame_witness :
  players (click ann_clicked "1000" 5200 false).1 = players ann_clicked
  ∧ combo (click ann_clicked "1000" 5200 false).1 = combo ann_clicked
  ∧ lb_gold (click ann_clicked "1000" 5200 false).1 = lb_gold ann_clicked.
Proof.
  destruct (click_not_accepted_frame ann_clicked "1000" 5200 false
              (click ann_clicked "1000" 5200 false).1 (ClickCooldown 300))
    as (H1 & _ & H3 & _ & H5 & _);
    [by_computation|intros H; exact H|].
  exact (conj H1 (conj H3 H5)).
Defined.

Lemma click_window_bounded_witness :
  5200 ∈ rate_window (click ann_clicked "1000" 5200 false).1 "1000"
  ∧ Z.of_nat (size (rate_window (click ann_clicked "1000" 5200 false).1 "1000"))
    ≤ max_hits_setting ann_clicked.
Proof.
  destruct (click_window_bounded ann_clicked "1000" 5200 false
              (click ann_clicked "1000" 5200 false).1 (ClickCooldown 300))
    as (H1 & H2 & _);
    [by_computation|left; exists 300; reflexivity|].
  exact (conj H1 H2).
Defined.

Lemma accepted_click_touches_own_witness :
  inventory ann_clicked = inventory with_ann
  ∧ stock ann_clicked = stock with_ann
  ∧ clicks ann_clicked !! "1000" = Some 1.
Proof.
  destruct (accepted_click_touches_own with_ann "1000" 5000 false ann_clicked
              (ClickReply 10 1010 1 false 1 500 1000 3))
    as (_ & H2 & _ & H4 & _ & _ & _ & H8);
    [by_computation|].
  exact (conj H2 (conj H4 H8)).
Defined.


Lemma settings_stay_in_range_witness :
  0 ≤ cooldown_setting quick ∧ 0 < window_setting quick ∧ 1 ≤ max_hits_setting quick.
Proof.
  apply (settings_stay_in_range quick).
  apply (reach_step _ (ReqSetCooldown _ _ _)); [apply with_ann_reachable|exact I].
Defined.

Lemma stock_never_negative_witness :
  stock bob_leads !! "sword_bronze" = Some 99 ∧ 0 ≤ 99.
Proof.
  assert (H : stock bob_leads !! "sword_bronze" = Some 99) by by_computation.
  split; [exact H|].
  exact (stock_never_negative bob_leads bob_leads_reachable "sword_bronze" 99 H).
Defined.

Lemma usernames_stay_unique_witness :
  players with_bob !! "2000" = Some (Player (Some "bob") 1000 (Some 2000))
  ∧ "2000" = "2000".
Proof.
  assert (H : players with_bob !! "2000" = Some (Player (Some "bob") 1000 (Some 2000)))
    by by_computation.
  split; [exact H|].
  exact (usernames_stay_unique with_bob with_bob_reachable "2000" "2000" _ _ "bob"
           H H eq_refl eq_refl).
Defined.

Lemma login_again_same_player_witness :
  ∃ s2, player_login with_ann "ann" 7000 = (s2, LoginExisting "1000")
    ∧ gold_of s2 "1000" = 1000
    ∧ lb_gold s2 = lb_gold with_ann.
Proof.
  destruct (login_again_same_player seeded "ann" 1000 with_ann "1000" 7000)
    as (s2 & H1 & _ & H3 & H4 & _);
    [by_computation|].
  exists s2. exact (conj H1 (conj H3 H4)).
Defined.

Lemma auction_create_escrow_witness :
  ∃ s', auction_create ann_has_sword "1000" 7 50 4000
          = (s', CreateOk ("auction:" +:+ pretty 4000))
    ∧ default [] (inventory s' !! "1000")
      = delete 0%nat (default [] (inventory ann_has_sword !! "1000"))
    ∧ ("auction:" +:+ pretty 4000, sword_50) ∈ auction_list s'.
Proof.
  destruct (auction_create_escrow ann_has_sword "1000" 7 50 4000
              (Player (Some "ann") 900 (Some 1000)) "ann" 0%nat sword_7)
    as (s' & H1 & H2 & _ & _ & _ & _ & _ & H8 & _);
    [by_computation|by_computation|reflexivity|].
  exists s'. exact (conj H1 (conj H2 H8)).
Defined.

Lemma auction_create_nameless_witness :
  ∃ s', auction_create ghost_owns "ghost" 8 50 5000 = (s', CreateRaised)
    ∧ default [] (inventory s' !! "ghost")
      = delete 0%nat (default [] (inventory ghost_owns !! "ghost"))
    ∧ auction_list s' = auction_list ghost_owns.
Proof.
  destruct (auction_create_nameless ghost_owns "ghost" 8 50 5000 0%nat
              (InventoryItem "sword_bronze" "青銅劍" 8 9))
    as (s' & H1 & H2 & _ & _ & H5);
    [by_computation|by_computation|].
  exists s'. exact (conj H1 (conj H2 H5)).
Defined.

Lemma auction_list_complete_witness :
  NoDup (auction_list bob_leads).*1
  ∧ ("auction:4000", sword_60) ∈ auction_list bob_leads.
Proof.
  destruct (auction_list_complete bob_leads bob_leads_reachable) as (H1 & H2 & _).
  split; [exact H2|]. apply H1. by_computation.
Defined.


Lemma bids_keep_listings_witness :
  active (auction_bid listed "auction:4000" "2000" 60).1 = active listed
  ∧ inventory (auction_bid listed "auction:4000" "2000" 60).1 = inventory listed.
Proof.
  destruct (bids_keep_listings listed "auction:4000" "2000" 60 "auction:4000"
              sword_50)
    as (H1 & H2 & _);
    [by_computation|].
  exact (conj H1 H2).
Defined.

Lemma bid_without_balance_witness :
  auction_bid listed "auction:4000" "nobody" 60 = (listed, BidRaised).
Proof.
  apply (bid_without_balance listed "auction:4000" "nobody" 60 sword_50);
    [by_computation|reflexivity|by_computation].
Defined.


Lemma goods_stay_genuine_witness :
  ∃ it, ("sword_bronze", it) ∈ catalogue ∧ item_name it = "青銅劍".
Proof.
  destruct (goods_stay_genuine ghost_owns ghost_owns_reachable) as (_ & H & _).
  apply (H "ghost" [InventoryItem "sword_bronze" "青銅劍" 8 9]
           (InventoryItem "sword_bronze" "青銅劍" 8 9)).
  - by_computation.
  - apply list_elem_of_singleton. reflexivity.
Defined.
